(** * fenrir-api: a shallow embedding of [fenrir_api.py]

    The module exposes a database to programmatic clients through a Flask
    blueprint ([create_fenrir_bp]) and an application-wide basic-auth hook
    ([secure_app]).  This development embeds

    - the Python string operations the module relies on ([str.strip],
      [str.startswith], [str.splitlines]);
    - the compiled pattern [_READ_ONLY_RE] as a regular expression, run by a
      derivative matcher that is proved correct against the language of the
      expression;
    - the two access checks ([_require_auth], [_basic_auth_check]);
    - the three views ([index], [schema], [query]) as programs of a small
      state-and-exception monad over an abstract SQL backend, together with
      the URL map of the blueprint.

    The strings that come with the JSON body of a request, and so the SQL
    text, are sequences of arbitrary code points ([ustr]): the white-space
    class and the comparison made under [re.IGNORECASE] are those of Python
    on the whole of Unicode.  The texts that come with the deployment (paths,
    header values, the secret, FENRIR.md, the names of tables and columns,
    the messages) are embedded as [string], whose characters are the code
    points below 256.

    The backend is a parameter.  It says what a statement does to the
    contents it runs on, before which statements the driver opens a
    transaction by itself, what [fetchmany] does with a size below one, and
    what the inspector reads from the catalog, where every call may raise. *)

From Stdlib Require Import Bool Arith NArith ZArith Lia List String Ascii.
From Stdlib Require Import Sorted Permutation.
Import ListNotations.
Open Scope string_scope.
Open Scope nat_scope.

Set Implicit Arguments.
Set Warnings "-register-all".

(* ================================================================== *)
(** * Python strings *)
(* ================================================================== *)

(** ** Texts of the deployment *)

Module PyStr.

(** [str.isspace] on one character below U+0100: U+0009..U+000D,
    U+001C..U+0020, U+0085 and U+00A0. *)
Definition isspace (c : ascii) : bool :=
  let n := nat_of_ascii c in
  ((9 <=? n) && (n <=? 13)) || ((28 <=? n) && (n <=? 32))
  || (n =? 133) || (n =? 160).

Fixpoint forallb (p : ascii -> bool) (s : string) : bool :=
  match s with
  | EmptyString => true
  | String c s' => p c && forallb p s'
  end.

Definition is_empty (s : string) : bool :=
  match s with EmptyString => true | String _ _ => false end.

(** [s.lstrip(chars)] with the characters given as a predicate. *)
Fixpoint lstrip_with (p : ascii -> bool) (s : string) : string :=
  match s with
  | EmptyString => EmptyString
  | String c s' => if p c then lstrip_with p s' else s
  end.

(** The prefix that [lstrip_with] removes. *)
Fixpoint leading (p : ascii -> bool) (s : string) : string :=
  match s with
  | EmptyString => EmptyString
  | String c s' => if p c then String c (leading p s') else EmptyString
  end.

Fixpoint rstrip_with (p : ascii -> bool) (s : string) : string :=
  match s with
  | EmptyString => EmptyString
  | String c s' =>
      let r := rstrip_with p s' in
      if p c && is_empty r then EmptyString else String c r
  end.

Definition lstrip (s : string) : string := lstrip_with isspace s.
Definition rstrip (s : string) : string := rstrip_with isspace s.

(** [s.strip()]. *)
Definition strip (s : string) : string := rstrip (lstrip s).

(** [s.startswith(p)]. *)
Definition startswith (s p : string) : bool := String.prefix p s.

(** Line boundaries of [str.splitlines] below U+0100. *)
Definition is_linebreak (c : ascii) : bool :=
  let n := nat_of_ascii c in
  ((10 <=? n) && (n <=? 13)) || ((28 <=? n) && (n <=? 30)) || (n =? 133).

(** [splitlines_from cur after_cr s]: [cur] is the line being read and
    [after_cr] tells that the previous character was a carriage return,
    so that a line feed that follows belongs to the same boundary. *)
Fixpoint splitlines_from (cur : string) (after_cr : bool) (s : string)
  : list string :=
  match s with
  | EmptyString => if is_empty cur then [] else [cur]
  | String c s' =>
      if after_cr && (nat_of_ascii c =? 10) then splitlines_from cur false s'
      else if is_linebreak c
           then cur :: splitlines_from EmptyString (nat_of_ascii c =? 13) s'
           else splitlines_from (cur ++ String c EmptyString) false s'
  end.

(** [s.splitlines()]. *)
Definition splitlines (s : string) : list string :=
  splitlines_from EmptyString false s.

End PyStr.

(** ** Texts of a request *)

(** A [str] of any code points, as [json] decodes it from the body of a
    request.  A code point is a number; Python's are below 0x110000. *)
Definition ustr : Type := list N.

(** The code points of a text written in the range below U+0100. *)
Definition U (s : string) : ustr :=
  List.map N_of_ascii (list_ascii_of_string s).

Module UStr.

(** [str.isspace] on one code point, which is also the class [\s] of a
    [str] pattern and the set that [str.strip] removes: U+0009..U+000D,
    U+001C..U+0020, U+0085, U+00A0, U+1680, U+2000..U+200A, U+2028,
    U+2029, U+202F, U+205F and U+3000. *)
Definition isspace (c : N) : bool :=
  (N.leb 9 c && N.leb c 13) || (N.leb 28 c && N.leb c 32)
  || N.eqb c 133 || N.eqb c 160 || N.eqb c 5760
  || (N.leb 8192 c && N.leb c 8202)
  || N.eqb c 8232 || N.eqb c 8233 || N.eqb c 8239 || N.eqb c 8287
  || N.eqb c 12288.

(** The lower case of the letters A to Z; every other code point is left
    as it is. *)
Definition ascii_lower (c : N) : N :=
  if N.leb 65 c && N.leb c 90 then N.add c 32 else c.

Definition is_empty (s : ustr) : bool :=
  match s with [] => true | _ :: _ => false end.

Fixpoint eqb (a b : ustr) : bool :=
  match a, b with
  | [], [] => true
  | x :: a', y :: b' => N.eqb x y && eqb a' b'
  | _, _ => false
  end.

(** [s.lstrip(chars)] with the characters given as a predicate. *)
Fixpoint lstrip_with (p : N -> bool) (s : ustr) : ustr :=
  match s with
  | [] => []
  | c :: s' => if p c then lstrip_with p s' else s
  end.

(** The prefix that [lstrip_with] removes. *)
Fixpoint leading (p : N -> bool) (s : ustr) : ustr :=
  match s with
  | [] => []
  | c :: s' => if p c then c :: leading p s' else []
  end.

Fixpoint rstrip_with (p : N -> bool) (s : ustr) : ustr :=
  match s with
  | [] => []
  | c :: s' =>
      let r := rstrip_with p s' in
      if p c && is_empty r then [] else c :: r
  end.

Definition lstrip (s : ustr) : ustr := lstrip_with isspace s.
Definition rstrip (s : ustr) : ustr := rstrip_with isspace s.

(** [s.strip()]. *)
Definition strip (s : ustr) : ustr := rstrip (lstrip s).

End UStr.

(* ================================================================== *)
(** * Regular expressions and [re.match] *)
(* ================================================================== *)

Module Regex.

Inductive regex : Type :=
| Void : regex                          (* no string; only a derivative *)
| Eps : regex                           (* the empty string *)
| Class : (N -> bool) -> regex          (* one character of a class *)
| Seq : regex -> regex -> regex
| Alt : regex -> regex -> regex
| Star : regex -> regex.

(** The language of an expression. *)
Inductive matches : regex -> ustr -> Prop :=
| MEps : matches Eps []
| MClass : forall p c, p c = true -> matches (Class p) [c]
| MSeq : forall r1 r2 s1 s2,
    matches r1 s1 -> matches r2 s2 -> matches (Seq r1 r2) (s1 ++ s2)%list
| MAltL : forall r1 r2 s, matches r1 s -> matches (Alt r1 r2) s
| MAltR : forall r1 r2 s, matches r2 s -> matches (Alt r1 r2) s
| MStar0 : forall r, matches (Star r) []
| MStarS : forall r s1 s2,
    matches r s1 -> matches (Star r) s2 -> matches (Star r) (s1 ++ s2)%list.

Fixpoint nullable (r : regex) : bool :=
  match r with
  | Void => false
  | Eps => true
  | Class _ => false
  | Seq r1 r2 => nullable r1 && nullable r2
  | Alt r1 r2 => nullable r1 || nullable r2
  | Star _ => true
  end.

Fixpoint deriv (c : N) (r : regex) : regex :=
  match r with
  | Void => Void
  | Eps => Void
  | Class p => if p c then Eps else Void
  | Seq r1 r2 =>
      if nullable r1 then Alt (Seq (deriv c r1) r2) (deriv c r2)
      else Seq (deriv c r1) r2
  | Alt r1 r2 => Alt (deriv c r1) (deriv c r2)
  | Star r1 => Seq (deriv c r1) (Star r1)
  end.

(** [pattern.match(s)]: some prefix of [s] is in the language of the
    pattern.  The result is the truth value of the match object. *)
Fixpoint re_match (r : regex) (s : ustr) : bool :=
  nullable r ||
  match s with
  | [] => false
  | c :: s' => re_match (deriv c r) s'
  end.

(** What a literal letter A-Z or a-z of a [str] pattern matches under
    [re.IGNORECASE]: the pattern engine lower-cases the subject character
    and looks for it among the lower-cased literal and the characters
    that Unicode case folding makes equal to it.  These are the letter in
    both cases and, on top of them, U+0130 and U+0131 for the letter i,
    U+017F for s and U+212A for k. *)
Definition literal_ignorecase (literal x : N) : bool :=
  let lo := UStr.ascii_lower literal in
  N.eqb (UStr.ascii_lower x) lo
  || (N.eqb lo 105 && (N.eqb x 304 || N.eqb x 305))
  || (N.eqb lo 115 && N.eqb x 383)
  || (N.eqb lo 107 && N.eqb x 8490).

(** A literal letter. *)
Definition lit (ignorecase : bool) (c : N) : regex :=
  if ignorecase then Class (literal_ignorecase c) else Class (N.eqb c).

Fixpoint lits (ignorecase : bool) (s : ustr) : regex :=
  match s with
  | [] => Eps
  | c :: s' => Seq (lit ignorecase c) (lits ignorecase s')
  end.

(** The class [\s]. *)
Definition space : regex := Class UStr.isspace.

End Regex.

(* ================================================================== *)
(** * Statement classification *)
(* ================================================================== *)

(** [_READ_ONLY_RE = re.compile(r"^\s*(SELECT|WITH\s)", re.IGNORECASE | re.DOTALL)].
    [match] tries the pattern at position 0 only, where [^] holds; the
    pattern has no dot, so [re.DOTALL] changes nothing. *)
Definition _READ_ONLY_RE : Regex.regex :=
  Regex.Seq (Regex.Star Regex.space)
            (Regex.Alt (Regex.lits true (U "SELECT"))
                       (Regex.Seq (Regex.lits true (U "WITH")) Regex.space)).

Inductive classification : Type := READ_ONLY | MUTATING.

(** The two outcomes of the test [_READ_ONLY_RE.match(sql)]. *)
Definition classify (sql : ustr) : classification :=
  if Regex.re_match _READ_ONLY_RE sql then READ_ONLY else MUTATING.

(** [s] begins with the keyword [kw], each character of [s] being compared
    with the letter of the keyword by [same]. *)
Fixpoint begins_with (same : N -> N -> bool) (kw s : ustr) : bool :=
  match kw, s with
  | [], _ => true
  | _ :: _, [] => false
  | k :: kw', x :: s' => same k x && begins_with same kw' s'
  end.

(** A prefix rule: the text, once its leading white space is removed,
    begins with [SELECT], or with [WITH] and then a white-space
    character. *)
Definition prefix_rule (same : N -> N -> bool) (s : ustr) : bool :=
  let t := UStr.lstrip s in
  begins_with same (U "SELECT") t
  || (begins_with same (U "WITH") t
      && match nth_error t 4 with
         | Some c => UStr.isspace c
         | None => false
         end).

(** Two characters that are the same letter up to its case.  On the
    letters of the two keywords this is the comparison of the lower-cased
    texts: no code point outside A-Z has one of these letters as its lower
    case.  (U+0130 becomes two code points, an i and a combining dot, so
    that the lower-cased text does not begin with the keyword either; its
    upper case and its case-folded form are no I.) *)
Definition same_letter (k x : N) : bool :=
  N.eqb (UStr.ascii_lower x) (UStr.ascii_lower k).

(** The classification rule in the words of the specification: the
    keyword is looked for case-insensitively. *)
Definition spec_read_only (s : ustr) : bool := prefix_rule same_letter s.

(** The rule with the comparison that [re.IGNORECASE] makes. *)
Definition ignorecase_read_only (s : ustr) : bool :=
  prefix_rule Regex.literal_ignorecase s.

(* ================================================================== *)
(** * Python values, requests and responses *)
(* ================================================================== *)

(** The decoded JSON body of a request.  Numbers are integers. *)
Inductive pyval : Type :=
| PNone : pyval
| PBool : bool -> pyval
| PInt : Z -> pyval
| PStr : ustr -> pyval
| PList : list pyval -> pyval
| PDict : list (string * pyval) -> pyval.

(** Truth value of an object, as tested by [or], [and], [if] and [not]. *)
Definition truthy (v : pyval) : bool :=
  match v with
  | PNone => false
  | PBool b => b
  | PInt z => negb (Z.eqb z 0)
  | PStr s => negb (UStr.is_empty s)
  | PList l => match l with [] => false | _ :: _ => true end
  | PDict d => match d with [] => false | _ :: _ => true end
  end.

(** [a or b]. *)
Definition py_or (a b : pyval) : pyval := if truthy a then a else b.

(** Exceptions carry their class name and the text that [str(exc)] gives. *)
Record exn : Type := Exn { exn_class : string; exn_str : string }.

Inductive result (A : Type) : Type :=
| Ok : A -> result A
| Raise : exn -> result A.
Arguments Ok {A} _.
Arguments Raise {A} _.

Fixpoint assoc (k : string) (d : list (string * pyval)) : option pyval :=
  match d with
  | [] => None
  | (k', v) :: d' => if String.eqb k k' then Some v else assoc k d'
  end.

(** [obj.get(key, default)]: defined on dictionaries only. *)
Definition py_get (obj : pyval) (key : string) (default : pyval)
  : result pyval :=
  match obj with
  | PDict d => Ok (match assoc key d with Some v => v | None => default end)
  | _ => Raise (Exn "AttributeError" "object has no attribute 'get'")
  end.

(** [obj.strip()]: defined on strings only. *)
Definition py_strip (obj : pyval) : result ustr :=
  match obj with
  | PStr s => Ok (UStr.strip s)
  | _ => Raise (Exn "AttributeError" "object has no attribute 'strip'")
  end.

(** The value of one cell of a result row, as the driver hands it over:
    [None], a number, a [str], or the [bytes] of a BLOB. *)
Inductive cell : Type :=
| CNull : cell
| CInt : Z -> cell
| CStr : ustr -> cell
| CBytes : list N -> cell.

Inductive http_method : Type := GET | HEAD | OPTIONS | POST | PUT | DELETE.

(** What the views and the hooks read from [flask.request]. *)
Record request : Type := Request {
  req_method : http_method;
  req_path : string;                       (* request.path *)
  req_endpoint : option string;            (* request.endpoint *)
  req_headers : string -> option string;   (* request.headers.get *)
  req_authorization : option (option string);
    (* request.authorization, and its .password when there is one *)
  req_json : pyval                         (* request.get_json(silent=True) *)
}.

(** What they read from the application and from the process. *)
Record app_env : Type := AppEnv {
  debug : bool;                            (* app.debug *)
  FENRIR_API_KEY : option string;          (* os.environ.get("FENRIR_API_KEY") *)
  app_name : string;                       (* current_app.name *)
  fenrir_md_file : option string           (* text of FENRIR.md, when found *)
}.

Record column : Type := Column {
  column_name : string;
  column_type : string;
  column_nullable : bool;
  column_default : option string
}.

Record foreign_key : Type := ForeignKey {
  fk_columns : list string;
  fk_referred_table : string;
  fk_referred_columns : list string
}.

Record index_desc : Type := IndexDesc {
  index_name : option string;
  index_columns : list string;
  index_unique : bool
}.

Record table_desc : Type := TableDesc {
  td_columns : list column;
  td_primary_key : list string;
  td_foreign_keys : list foreign_key;
  td_indexes : list index_desc
}.

(** The object handed to [jsonify], or the text of a plain response. *)
Inductive payload : Type :=
| JError : string -> payload                       (* {"error": ...} *)
| JIndex : string -> option string -> list (string * option cell) -> payload
    (* {"app", "fenrir_md", "tables": [{"name", "row_count"}]} *)
| JSchema : list (string * table_desc) -> payload   (* {"tables": {...}} *)
| JQuery : list string -> list (list cell) -> nat -> bool -> Z -> payload
    (* {"columns", "rows", "row_count", "truncated", "row_limit"} *)
| Text : string -> payload
| Page : payload.                                   (* a page of the framework *)

Record response : Type := Response {
  status : nat;
  payload_of : payload;
  extra_headers : list (string * string)
}.

(** The response that [jsonify] builds from an object it can serialise. *)
Definition jsonify (code : nat) (p : payload) : response := Response code p [].

(** The JSON provider serialises [None], numbers and [str]; it has no
    encoding for [bytes]. *)
Definition cell_serialisable (c : cell) : bool :=
  match c with CBytes _ => false | _ => true end.

Definition rows_serialisable (rows : list (list cell)) : bool :=
  forallb (forallb cell_serialisable) rows.

Definition counts_serialisable (tables : list (string * option cell)) : bool :=
  forallb (fun t => match snd t with
                    | Some c => cell_serialisable c
                    | None => true
                    end) tables.

Definition serialisable (p : payload) : bool :=
  match p with
  | JIndex _ _ tables => counts_serialisable tables
  | JQuery _ rows _ _ _ => rows_serialisable rows
  | _ => true
  end.

(** [jsonify(obj)] on an object that holds values read from the database:
    it raises [TypeError] when one of them cannot be serialised. *)
Definition try_jsonify (code : nat) (p : payload) : result response :=
  if serialisable p then Ok (jsonify code p)
  else Raise (Exn "TypeError" "Object of type bytes is not JSON serializable").

Definition is_2xx (r : response) : bool :=
  (200 <=? status r) && (status r <? 300).

(* ================================================================== *)
(** * The access checks *)
(* ================================================================== *)

(** The character U+0022. *)
Definition dquote : string := String (ascii_of_nat 34) EmptyString.

(** The headers of the challenge sent by [_basic_auth_check]. *)
Definition www_authenticate : list (string * string) :=
  [("WWW-Authenticate", "Basic realm=" ++ dquote ++ "Login" ++ dquote)].

(** [s[n:]]. *)
Fixpoint drop (n : nat) (s : string) : string :=
  match n, s with
  | O, _ => s
  | S _, EmptyString => EmptyString
  | S n', String _ s' => drop n' s'
  end.

Definition or_default (o : option string) (d : string) : string :=
  match o with Some s => s | None => d end.

(** [_require_auth(f)]: the wrapper put around every view of the
    blueprint.  [f] is the wrapped view, of any result type. *)
Definition _require_auth {R : Type} (lift : response -> R)
  (env : app_env) (req : request) (f : R) : R :=
  if debug env then f
  else
    match FENRIR_API_KEY env with
    | None => lift (jsonify 401 (JError "FENRIR_API_KEY not configured"))
    | Some api_key =>
        if PyStr.is_empty api_key
        then lift (jsonify 401 (JError "FENRIR_API_KEY not configured"))
        else
          let auth := or_default (req_headers req "Authorization") "" in
          if negb (PyStr.startswith auth "Bearer ")
             || negb (String.eqb (drop 7 auth) api_key)
          then lift (jsonify 401 (JError "unauthorized"))
          else f
    end.

(** The keyword arguments of [secure_app]. *)
Record secure_cfg : Type := SecureCfg {
  skip_paths : option (list string);
  api_key_header : option string
}.

(** The list [_skip] built when [secure_app] is called. *)
Definition _skip (cfg : secure_cfg) : list string :=
  ["/fenrir/"; "/static/"] ++
  match skip_paths cfg with
  | Some (p :: ps) => p :: ps
  | _ => []
  end.

Definition opt_eqb (o : option string) (s : string) : bool :=
  match o with Some x => String.eqb x s | None => false end.

(** [_basic_auth_check()]: the [before_request] hook.  [None] lets the
    request go on to its view; [Some r] answers it with [r]. *)
Definition _basic_auth_check (cfg : secure_cfg) (env : app_env)
  (req : request) : option response :=
  if debug env then None
  else
    let path := req_path req in
    if String.eqb path "/" || existsb (fun p => PyStr.startswith path p) (_skip cfg)
    then None
    else if opt_eqb (req_endpoint req) "static" then None
    else
      match FENRIR_API_KEY env with
      | None => Some (Response 503 (Text "Not configured") [])
      | Some api_key =>
          if PyStr.is_empty api_key
          then Some (Response 503 (Text "Not configured") [])
          else
            let by_header :=
              match api_key_header cfg with
              | Some h =>
                  negb (PyStr.is_empty h) &&
                  match req_headers req h with
                  | Some header_val =>
                      negb (PyStr.is_empty header_val)
                      && String.eqb header_val api_key
                  | None => false
                  end
              | None => false
              end in
            if by_header then None
            else
              match req_authorization req with
              | Some (Some password) =>
                  if String.eqb password api_key then None
                  else Some (Response 401 (Text "Authentication required")
                               www_authenticate)
              | _ => Some (Response 401 (Text "Authentication required")
                             www_authenticate)
              end
      end.

(* ================================================================== *)
(** * The SQL backend *)
(* ================================================================== *)

(** A [CursorResult]: the column names and the rows not fetched yet, or a
    result that returns no rows. *)
Inductive cursor : Type :=
| Rows : list string -> list (list cell) -> cursor
| NoRows : cursor.

Inductive outcome (D : Type) : Type :=
| Failed : string -> outcome D            (* the driver raised; its message *)
| Done : cursor -> D -> outcome D.        (* the result and the new contents *)
Arguments Failed {D} _.
Arguments Done {D} _ _.

(** The dictionaries returned by the inspector. *)
Record reflected_column : Type := ReflectedColumn {
  rc_name : string;                       (* col["name"] *)
  rc_type : string;                       (* str(col["type"]) *)
  rc_nullable : option bool;              (* col.get("nullable") *)
  rc_default : option string              (* col.get("default") *)
}.

Record reflected_fk : Type := ReflectedFk {
  rfk_name : option string;
  rfk_constrained_columns : list string;
  rfk_referred_schema : option string;
  rfk_referred_table : string;
  rfk_referred_columns : list string
}.

Record reflected_index : Type := ReflectedIndex {
  ri_name : option string;
  ri_column_names : list string;
  ri_unique : bool
}.

(** The engine and its driver.

    - [run_sql] says what a statement does to the contents it runs on.
    - [driver_begins] tells the statements before which the driver opens a
      transaction when none is in progress.  A statement for which it does
      not runs outside any transaction, and what it writes is committed at
      once.  The SQLite driver opens one before INSERT, UPDATE, DELETE and
      REPLACE only; the PostgreSQL drivers open one before every
      statement.
    - [fetchmany_nonpositive] is [cursor.fetchmany(n)] for a size below
      one, which the DB-API leaves to the driver: the rows taken and the
      rows left.
    - The last five fields are the methods of the inspector; each of them
      may raise.  [get_pk_constraint] gives [None] for a false value, and
      [Some None] for a dictionary without ["constrained_columns"]. *)
Class Backend : Type := {
  DB : Type;
  run_sql : ustr -> DB -> outcome DB;
  driver_begins : ustr -> bool;
  fetchmany_nonpositive :
    Z -> list (list cell) -> result (list (list cell) * list (list cell));
  get_table_names : DB -> result (list string);
  get_columns : DB -> string -> result (list reflected_column);
  get_pk_constraint : DB -> string -> result (option (option (list string)));
  get_foreign_keys : DB -> string -> result (list reflected_fk);
  get_indexes : DB -> string -> result (list reflected_index)
}.

(** The calls a view makes on its connection, and the places where it
    calls a method of the inspector.  The inspector works on connections
    of its own, which are not listed. *)
Inductive db_call : Type :=
| Connect : db_call
| Begin : db_call
| Execute : ustr -> db_call
| Rollback : db_call
| Close : db_call
| Inspect : db_call.

Section Views.

Context {B : Backend}.

(** The database as a request finds it: the committed contents; the
    contents seen by the transaction that the driver has opened on the
    connection, when there is one; whether the connection has begun a
    transaction of its own ([conn.begin()], or the first statement); whether the
    connection is checked out; and the calls made so far. *)
Record world : Type := World {
  committed : DB;
  txn : option DB;
  begun : bool;
  conn_open : bool;
  calls : list db_call
}.

(** ** State and exceptions *)

Definition M (A : Type) : Type := world -> result A * world.

Definition ret {A : Type} (a : A) : M A := fun w => (Ok a, w).

Definition bind {A C : Type} (m : M A) (k : A -> M C) : M C :=
  fun w =>
    match m w with
    | (Ok a, w') => k a w'
    | (Raise e, w') => (Raise e, w')
    end.

Definition lift_result {A : Type} (r : result A) : M A := fun w => (r, w).

(** [try: m  except Exception as exc: handler(exc)], followed by
    [continue] when [m] raised nothing.  What [continue] raises is not
    caught. *)
Definition try_except {A C : Type} (m : M A) (continue : A -> M C)
  (handler : exn -> M C) : M C :=
  fun w =>
    match m w with
    | (Ok a, w') => continue a w'
    | (Raise e, w') => handler e w'
    end.

(** [try: m  except Exception: pass]. *)
Definition suppress {A : Type} (m : M A) : M unit :=
  try_except m (fun _ => ret tt) (fun _ => ret tt).

Definition log (c : db_call) (w : world) : world :=
  World (committed w) (txn w) (begun w) (conn_open w) (calls w ++ [c]).

(** ** The connection *)

(** [engine.connect()].  The engine is taken to be reachable. *)
Definition connect : M unit :=
  fun w => (Ok tt, World (committed w) None false true (calls w ++ [Connect])).

(** [conn.begin()]: the connection begins its transaction.  Nothing is
    sent to the database; the driver opens the transaction of the
    database when a statement asks for it. *)
Definition conn_begin : M unit :=
  fun w => (Ok tt, World (committed w) (txn w) true (conn_open w)
                         (calls w ++ [Begin])).

(** [conn.execute(text(sql))].  The connection begins its transaction by
    itself when it has none.  Inside a transaction of the driver the
    statement works on the contents seen there.  With none in progress,
    the driver opens one when [driver_begins] says so; otherwise the
    statement works on the committed contents and what it writes is
    committed.  A statement that fails writes nothing. *)
Definition conn_execute (sql : ustr) : M cursor :=
  fun w =>
    let called := (calls w ++ [Execute sql])%list in
    match txn w with
    | Some seen =>
        match run_sql sql seen with
        | Failed msg =>
            (Raise (Exn "DBAPIError" msg),
             World (committed w) (Some seen) true (conn_open w) called)
        | Done cur seen' =>
            (Ok cur, World (committed w) (Some seen') true (conn_open w) called)
        end
    | None =>
        if driver_begins sql
        then
          match run_sql sql (committed w) with
          | Failed msg =>
              (Raise (Exn "DBAPIError" msg),
               World (committed w) (Some (committed w)) true (conn_open w) called)
          | Done cur seen' =>
              (Ok cur,
               World (committed w) (Some seen') true (conn_open w) called)
          end
        else
          match run_sql sql (committed w) with
          | Failed msg =>
              (Raise (Exn "DBAPIError" msg),
               World (committed w) None true (conn_open w) called)
          | Done cur db' =>
              (Ok cur, World db' None true (conn_open w) called)
          end
    end.

(** [conn.rollback()]: what the transaction of the driver holds is
    dropped. *)
Definition conn_rollback : M unit :=
  fun w => (Ok tt, World (committed w) None false (conn_open w)
                         (calls w ++ [Rollback])).

(** [conn.close()], called when the [with] block is left: a transaction
    that the connection has begun and not ended is rolled back. *)
Definition conn_close : M unit :=
  fun w =>
    (Ok tt,
     World (committed w) None false false
           (calls w ++ (if begun w then [Rollback; Close] else [Close]))).

(** [with engine.connect() as conn: body]. *)
Definition with_connection {A : Type} (body : M A) : M A :=
  fun w =>
    match connect w with
    | (Ok _, w1) =>
        match body w1 with
        | (r, w2) => (r, snd (conn_close w2))
        end
    | (Raise e, w1) => (Raise e, w1)
    end.

Definition no_rows : exn :=
  Exn "ResourceClosedError" "This result object does not return rows. It has been closed automatically.".

(** [result.keys()]. *)
Definition keys (r : cursor) : M (list string) :=
  match r with
  | Rows ks _ => ret ks
  | NoRows => lift_result (Raise no_rows)
  end.

(** What [fetchmany(n)] takes from the rows [rs] and what it leaves: the
    next [n] rows, fewer when fewer remain, for a size of one or more;
    what the driver decides for a size below one. *)
Definition take_rows (n : Z) (rs : list (list cell))
  : result (list (list cell) * list (list cell)) :=
  if (0 <? n)%Z then Ok (firstn (Z.to_nat n) rs, skipn (Z.to_nat n) rs)
  else fetchmany_nonpositive n rs.

(** [result.fetchmany(n)]. *)
Definition fetchmany (r : cursor) (n : Z) : M (list (list cell) * cursor) :=
  match r with
  | Rows ks rs =>
      match take_rows n rs with
      | Ok (taken, rest) => ret (taken, Rows ks rest)
      | Raise e => lift_result (Raise e)
      end
  | NoRows => lift_result (Raise no_rows)
  end.

(** [result.fetchone()]: the next row, or [None]. *)
Definition fetchone (r : cursor) : M (option (list cell)) :=
  match r with
  | Rows _ [] => ret None
  | Rows _ (row :: _) => ret (Some row)
  | NoRows => lift_result (Raise no_rows)
  end.

(** [result.scalar()]: the first cell of the first row, or [None]. *)
Definition scalar (r : cursor) : M (option cell) :=
  match r with
  | Rows _ [] => ret None
  | Rows _ ([] :: _) => lift_result (Raise (Exn "IndexError" "row has no column"))
  | Rows _ ((v :: _) :: _) => ret (Some v)
  | NoRows => lift_result (Raise no_rows)
  end.

(** A call of a method of the inspector made by [inspect(engine)].  It
    reads the committed catalog through a connection of its own, and it
    raises when the method does. *)
Definition inspector {A : Type} (f : DB -> result A) : M A :=
  fun w => (f (committed w), log Inspect w).

End Views.

Declare Scope view_scope.
Delimit Scope view_scope with view.
Notation "x <- m ;; k" := (bind m (fun x => k))
  (at level 61, m at next level, right associativity) : view_scope.
Notation "m ;;; k" := (bind m (fun _ => k))
  (at level 61, right associativity) : view_scope.
Open Scope view_scope.

(* ================================================================== *)
(** * The blueprint *)
(* ================================================================== *)

(** [sorted(names)] on strings: a stable sort by code points. *)
Fixpoint insert_sorted (x : string) (l : list string) : list string :=
  match l with
  | [] => [x]
  | y :: l' => if String.leb x y then x :: l else y :: insert_sorted x l'
  end.

Fixpoint sorted (l : list string) : list string :=
  match l with
  | [] => []
  | x :: l' => insert_sorted x (sorted l')
  end.

(** [d[k] = v] on a dictionary kept in insertion order. *)
Fixpoint dict_set {V : Type} (k : string) (v : V) (d : list (string * V))
  : list (string * V) :=
  match d with
  | [] => [(k, v)]
  | (k', v') :: d' =>
      if String.eqb k k' then (k', v) :: d' else (k', v') :: dict_set k v d'
  end.

Definition DEFAULT_ROW_LIMIT : Z := 1000.

(** [_read_fenrir_md()]: the text of the first FENRIR.md found. *)
Definition _read_fenrir_md (env : app_env) : option string :=
  fenrir_md_file env.

Definition is_hash (c : ascii) : bool := Ascii.eqb c "#"%char.

Fixpoint first_heading (lines : list string) : option string :=
  match lines with
  | [] => None
  | line :: rest =>
      let stripped := PyStr.strip line in
      if PyStr.startswith stripped "#"
      then Some (PyStr.strip (PyStr.lstrip_with is_hash stripped))
      else first_heading rest
  end.

(** [_extract_app_name(md, app_name)]. *)
Definition _extract_app_name (md : option string) (name : string) : string :=
  match md with
  | Some text =>
      if PyStr.is_empty text then name
      else match first_heading (PyStr.splitlines text) with
           | Some h => h
           | None => name
           end
  | None => name
  end.

Definition is_some {A : Type} (o : option A) : bool :=
  match o with Some _ => true | None => false end.


(** The substitution that the URL matcher applies to a path that no rule
    matches: every pair of slashes becomes one slash, from left to
    right. *)
Fixpoint merge_slashes (path : string) : string :=
  match path with
  | EmptyString => EmptyString
  | String c rest =>
      match rest with
      | String d rest' =>
          if Ascii.eqb c "/" && Ascii.eqb d "/"
          then String "/" (merge_slashes rest')
          else String c (merge_slashes rest)
      | EmptyString => String c EmptyString
      end
  end.

(** The statement built for one table by [index]. *)
Definition count_sql (table_name : string) : ustr :=
  U ("SELECT COUNT(*) FROM " ++ dquote ++ table_name ++ dquote).

(** The text of the statement that [query] tries first. *)
Definition set_read_only : ustr := U "SET TRANSACTION READ ONLY".

Section Blueprint.

Context {B : Backend}.

Fixpoint for_each {A C : Type} (f : A -> M C) (l : list A) : M (list C) :=
  match l with
  | [] => ret []
  | a :: l' => c <- f a ;; cs <- for_each f l' ;; ret (c :: cs)
  end.

(** The body of the loop of [index] for one table. *)
Definition count_rows (table_name : string) : M (string * option cell) :=
  r <- conn_execute (count_sql table_name) ;;
  count <- scalar r ;;
  ret (table_name, count).

(** [GET /fenrir/] *)
Definition index (env : app_env) : M response :=
  let md := _read_fenrir_md env in
  let name := _extract_app_name md (app_name env) in
  tables <- with_connection
              (names <- inspector get_table_names ;;
               for_each count_rows (sorted names)) ;;
  lift_result (try_jsonify 200 (JIndex name md tables)).

Definition describe_column (col : reflected_column) : column :=
  Column (rc_name col) (rc_type col)
         (match rc_nullable col with Some b => b | None => true end)
         (rc_default col).

Definition describe_fk (fk : reflected_fk) : foreign_key :=
  ForeignKey (rfk_constrained_columns fk) (rfk_referred_table fk)
             (rfk_referred_columns fk).

Definition describe_index (idx : reflected_index) : index_desc :=
  IndexDesc (ri_name idx) (ri_column_names idx) (ri_unique idx).

(** [pk.get("constrained_columns", []) if pk else []]. *)
Definition pk_columns (pk : option (option (list string))) : list string :=
  match pk with Some (Some cols) => cols | _ => [] end.

(** The body of the loop of [schema] for one table. *)
Definition describe_table (table_name : string) : M table_desc :=
  cols <- inspector (fun db => get_columns db table_name) ;;
  let columns := map describe_column cols in
  pk <- inspector (fun db => get_pk_constraint db table_name) ;;
  rfks <- inspector (fun db => get_foreign_keys db table_name) ;;
  let fks := map describe_fk rfks in
  idxs <- inspector (fun db => get_indexes db table_name) ;;
  let indexes := map describe_index idxs in
  ret (TableDesc columns (pk_columns pk) fks indexes).

Fixpoint schema_loop (names : list string) (tables : list (string * table_desc))
  : M (list (string * table_desc)) :=
  match names with
  | [] => ret tables
  | table_name :: rest =>
      d <- describe_table table_name ;;
      schema_loop rest (dict_set table_name d tables)
  end.

(** [GET /fenrir/schema] *)
Definition schema : M response :=
  names <- inspector get_table_names ;;
  tables <- schema_loop (sorted names) [] ;;
  ret (jsonify 200 (JSchema tables)).

(** The [with] block of [query]: what it leaves in [columns], [rows],
    [total] and [truncated].  The execution options speak to particular
    dialects: [postgresql_readonly] makes the PostgreSQL dialect begin its
    transactions read-only, which is what the statement
    [SET TRANSACTION READ ONLY] asks for again; other dialects ignore
    them. *)
Definition query_block (row_limit : Z) (sql : ustr)
  : M (list string * list (list cell) * nat * bool) :=
  with_connection
    (conn_begin ;;;
     suppress (conn_execute set_read_only) ;;;
     result <- conn_execute sql ;;
     columns <- keys result ;;
     fetched <- fetchmany result row_limit ;;
     let rows := fst fetched in
     let total := List.length rows in
     extra <- fetchone (snd fetched) ;;
     let truncated := is_some extra in
     conn_rollback ;;;
     ret (columns, rows, total, truncated)).

(** [POST /fenrir/query].  The last [jsonify] comes after the [try]
    statement: what it raises is not caught. *)
Definition query (row_limit : Z) (req : request) : M response :=
  let body := py_or (req_json req) (PDict []) in
  sql_obj <- lift_result (py_get body "sql" (PStr [])) ;;
  sql <- lift_result (py_strip sql_obj) ;;
  if UStr.is_empty sql
  then ret (jsonify 400 (JError "missing 'sql' field"))
  else if negb (Regex.re_match _READ_ONLY_RE sql)
  then ret (jsonify 400 (JError "only SELECT (or WITH ... SELECT) allowed"))
  else
    try_except
      (query_block row_limit sql)
      (fun '(columns, rows, total, truncated) =>
         lift_result
           (try_jsonify 200 (JQuery columns rows total truncated row_limit)))
      (fun exc => ret (jsonify 422 (JError (exn_str exc)))).

(** ** The URL map *)

(** A view function as the application calls it. *)
Definition view : Type := app_env -> request -> M response.

(** [create_fenrir_bp(engine, row_limit=...)]: the rules added by the
    [@bp.route] decorators under the prefix [/fenrir], each with its
    methods and its view wrapped by [_require_auth]. *)
Definition create_fenrir_bp (row_limit : Z)
  : list (string * (list http_method * view)) :=
  [ ("/fenrir/",
     ([GET], fun env req => _require_auth ret env req (index env)));
    ("/fenrir/schema",
     ([GET], fun env req => _require_auth ret env req schema));
    ("/fenrir/query",
     ([POST], fun env req => _require_auth ret env req (query row_limit req))) ].

Fixpoint find_rule (path : string)
  (rules : list (string * (list http_method * view)))
  : option (list http_method * view) :=
  match rules with
  | [] => None
  | (rule, target) :: rest =>
      if String.eqb path rule then Some target else find_rule path rest
  end.

Definition method_eqb (a b : http_method) : bool :=
  match a, b with
  | GET, GET | HEAD, HEAD | OPTIONS, OPTIONS
  | POST, POST | PUT, PUT | DELETE, DELETE => true
  | _, _ => false
  end.

(** A rule for [GET] also serves [HEAD]. *)
Definition allows (methods : list http_method) (m : http_method) : bool :=
  existsb (method_eqb m) methods
  || (method_eqb m HEAD && existsb (method_eqb GET) methods).

(** Dispatch of a request by the application that registered the
    blueprint: the view of the rule that matches, the automatic answer to
    [OPTIONS], and 405 when the rule does not allow the method.  When no
    rule matches the path as it is, a redirect when only the final slash
    of a rule is missing; then the same search with the doubled slashes
    of the path merged, where a rule that matches gives a redirect, or
    405 when it does not allow the method; and 404 otherwise. *)
Definition dispatch (row_limit : Z) (env : app_env) (req : request)
  : M response :=
  let url_map := create_fenrir_bp row_limit in
  let slash_missing path :=
    match find_rule (path ++ "/") url_map with
    | Some (methods, _) =>
        allows methods (req_method req) || method_eqb (req_method req) OPTIONS
    | None => false
    end in
  match find_rule (req_path req) url_map with
  | Some (methods, view_function) =>
      if allows methods (req_method req)
      then view_function env req
      else if method_eqb (req_method req) OPTIONS
      then ret (Response 200 Page [])
      else ret (Response 405 Page [])
  | None =>
      if slash_missing (req_path req) then ret (Response 308 Page [])
      else
        let merged := merge_slashes (req_path req) in
        match find_rule merged url_map with
        | Some (methods, _) =>
            if allows methods (req_method req)
               || method_eqb (req_method req) OPTIONS
            then ret (Response 308 Page [])
            else ret (Response 405 Page [])
        | None =>
            if slash_missing merged then ret (Response 308 Page [])
            else ret (Response 404 Page [])
        end
  end.

(** An exception that leaves a view is answered with status 500. *)
Definition answer (m : M response) (w : world) : response * world :=
  match m w with
  | (Ok r, w') => (r, w')
  | (Raise _, w') => (Response 500 Page [], w')
  end.

(** A whole request: the [before_request] hook when [secure_app] was
    called on the application, then the dispatch. *)
Definition handle (secure : option secure_cfg) (row_limit : Z)
  (env : app_env) (req : request) (w : world) : response * world :=
  match secure with
  | Some cfg =>
      match _basic_auth_check cfg env req with
      | Some r => (r, w)
      | None => answer (dispatch row_limit env req) w
      end
  | None => answer (dispatch row_limit env req) w
  end.

End Blueprint.

(* ================================================================== *)
(** * A small engine to run the views on *)
(* ================================================================== *)

(** One table [author(id, name)], held as its list of rows, behind the
    SQLite driver, as in the test suite of the repository.  The engine
    knows a handful of statements and rejects every other one, among them
    [SET TRANSACTION READ ONLY].  [SELECT add_author()] returns a row and
    writes one, as a function with a side effect called from a read would;
    the statement that starts with [WITH] inserts a row and returns none;
    [SELECT x'00'] returns a BLOB.  The driver opens a transaction before
    INSERT, UPDATE, DELETE and REPLACE only, and its [fetchmany] hands
    over every row that is left when the size is below one. *)
Module Bookstore.

Definition tolkien : list cell := [CInt 1; CStr (U "Tolkien")].
Definition pratchett : list cell := [CInt 2; CStr (U "Pratchett")].

Definition insert_with_cte : ustr :=
  U "WITH a AS (SELECT 1) INSERT INTO author (name) VALUES ('Pratchett')".

Definition run (sql : ustr) (db : list (list cell))
  : outcome (list (list cell)) :=
  if UStr.eqb sql (U "SELECT * FROM author")
  then Done (Rows ["id"; "name"] db) db
  else if UStr.eqb sql (count_sql "author")
  then Done (Rows ["COUNT(*)"] [[CInt (Z.of_nat (List.length db))]]) db
  else if UStr.eqb sql (count_sql "book")
  then Done (Rows ["COUNT(*)"] [[CInt 0]]) db
  else if UStr.eqb sql (U "SELECT add_author()")
  then Done (Rows ["add_author"] [[CInt 2]]) (db ++ [pratchett])%list
  else if UStr.eqb sql insert_with_cte
  then Done NoRows (db ++ [pratchett])%list
  else if UStr.eqb sql (U "SELECT x'00'")
  then Done (Rows ["x'00'"] [[CBytes [0%N]]]) db
  else Failed "syntax error".

(** The statements before which the SQLite driver opens a transaction. *)
Definition is_dml (sql : ustr) : bool :=
  existsb (fun kw => begins_with same_letter (U kw) (UStr.lstrip sql))
          ["INSERT"; "UPDATE"; "DELETE"; "REPLACE"].

Definition columns_of (t : string) : list reflected_column :=
  if String.eqb t "author"
  then [ReflectedColumn "id" "INTEGER" (Some false) None;
        ReflectedColumn "name" "VARCHAR" None None]
  else [ReflectedColumn "id" "INTEGER" (Some false) None;
        ReflectedColumn "author_id" "INTEGER" (Some false) None].

Definition fks_of (t : string) : list reflected_fk :=
  if String.eqb t "book"
  then [ReflectedFk None ["author_id"] None "author" ["id"]]
  else [].

#[export] Instance engine : Backend := {|
  DB := list (list cell);
  run_sql := run;
  driver_begins := is_dml;
  fetchmany_nonpositive := fun _ rs => Ok (rs, []);
  get_table_names := fun _ => Ok ["book"; "author"];
  get_columns := fun _ t => Ok (columns_of t);
  get_pk_constraint := fun _ _ => Ok (Some (Some ["id"]));
  get_foreign_keys := fun _ t => Ok (fks_of t);
  get_indexes := fun _ _ => Ok []
|}.

(** The same engine behind a driver that opens a transaction before
    every statement. *)
Definition transactional : Backend := {|
  DB := list (list cell);
  run_sql := run;
  driver_begins := fun _ => true;
  fetchmany_nonpositive := fun _ rs => Ok (rs, []);
  get_table_names := fun _ => Ok ["book"; "author"];
  get_columns := fun _ t => Ok (columns_of t);
  get_pk_constraint := fun _ _ => Ok (Some (Some ["id"]));
  get_foreign_keys := fun _ t => Ok (fks_of t);
  get_indexes := fun _ _ => Ok []
|}.

(** The database with [n] authors. *)
Fixpoint authors (n : nat) : list (list cell) :=
  match n with
  | O => []
  | S n' => (authors n' ++ [[CInt (Z.of_nat n); CStr (U "author")]])%list
  end.

Definition fresh (db : list (list cell)) : world :=
  World db None false false [].

Definition no_headers : string -> option string := fun _ => None.

Definition bearer (key : string) : string -> option string :=
  fun h => if String.eqb h "Authorization" then Some ("Bearer " ++ key) else None.

Definition post (path : string) (headers : string -> option string)
  (body : pyval) : request :=
  Request POST path None headers None body.

Definition sql_body (sql : string) : pyval := PDict [("sql", PStr (U sql))].

Definition production : app_env :=
  AppEnv false (Some "test-secret-key") "bookstore" (Some "# Bookstore").

Definition debugging : app_env :=
  AppEnv true None "bookstore" None.

End Bookstore.

(* ================================================================== *)
(** * Notions used in the statements *)
(* ================================================================== *)

(** The decision of [_require_auth] alone: [None] when the wrapped view is
    called, [Some r] when the wrapper answers [r] itself. *)
Definition bearer_check (env : app_env) (req : request) : option response :=
  _require_auth (fun r => Some r) env req None.

(** The statement of the specification about a check [gate]: when the
    check refuses a request because the secret is not configured, and
    refuses the same request when a secret is configured, the two answers
    differ and carry different statuses outside 2xx. *)
Definition misconfigured_differs_in_status
  (gate : app_env -> request -> option response) : Prop :=
  forall (name : string) (md : option string) (key : string) (req : request)
         (r_absent r_wrong : response),
    key <> "" ->
    gate (AppEnv false None name md) req = Some r_absent ->
    gate (AppEnv false (Some key) name md) req = Some r_wrong ->
    r_absent <> r_wrong
    /\ status r_absent <> status r_wrong
    /\ is_2xx r_absent = false /\ is_2xx r_wrong = false.

(** The body of a request has no usable [sql]: it is absent or false, or
    it is an object without the key, or the key holds a string that is
    empty or all white space. *)
Definition sql_missing_or_blank (body : pyval) : Prop :=
  truthy body = false
  \/ exists d, body = PDict d
               /\ (assoc "sql" d = None
                   \/ exists s, assoc "sql" d = Some (PStr s)
                                /\ forallb UStr.isspace s = true).

(** The body of a request carries the statement [raw]. *)
Definition posts_sql (req : request) (raw : ustr) : Prop :=
  exists d, req_json req = PDict d /\ assoc "sql" d = Some (PStr raw).

(** Two requests that differ in their headers and credentials at most. *)
Definition same_but_credentials (r1 r2 : request) : Prop :=
  req_method r1 = req_method r2 /\ req_path r1 = req_path r2
  /\ req_endpoint r1 = req_endpoint r2 /\ req_json r1 = req_json r2.

(** Two environments that differ in the configured secret at most. *)
Definition same_but_secret (e1 e2 : app_env) : Prop :=
  debug e1 = debug e2 /\ app_name e1 = app_name e2
  /\ fenrir_md_file e1 = fenrir_md_file e2.

(** Code-point order on strings. *)
Definition str_le (a b : string) : Prop := String.leb a b = true.

(** The statement of the specification about the classifier. *)
Definition classified_by_spec_rule : Prop :=
  forall S : ustr,
    classify S = (if spec_read_only S then READ_ONLY else MUTATING).

(** The text [WITH], a capital I with a dot above in place of the I, then
    a space and [x]. *)
Definition with_dotted_capital_i : ustr := [87; 304; 84; 72; 32; 120]%N.

(** No character of the text is one of those that [re.IGNORECASE] takes
    for a letter of another alphabet: U+0130, U+0131, U+017F, U+212A. *)
Definition plain_letters (s : ustr) : bool :=
  forallb (fun c => negb (N.eqb c 304 || N.eqb c 305 || N.eqb c 383
                          || N.eqb c 8490)) s.

(** The letters of the alphabet, in either case. *)
Definition is_letter (k : N) : Prop :=
  (97 <= UStr.ascii_lower k <= 122)%N.

Section Statements.

Context {B : Backend}.

(** The contents that the statement of [query] runs on: those left by
    the attempt to make the transaction read-only. *)
Definition read_only_view (db : DB) : DB :=
  match run_sql set_read_only db with
  | Done _ db' => db'
  | Failed _ => db
  end.

(** The calls made by the [with] block of [query]. *)
Definition read_calls (sql : ustr) : list db_call :=
  [Connect; Begin; Execute set_read_only; Execute sql; Rollback; Close].

(** What [count_rows] finds for one table when the connection sees [db]:
    [None] when the statement fails or gives no usable result. *)
Definition count_of (db : DB) (table_name : string) : option (option cell) :=
  match run_sql (count_sql table_name) db with
  | Done (Rows _ []) _ => Some None
  | Done (Rows _ ((v :: _) :: _)) _ => Some (Some v)
  | _ => None
  end.

(** The list built by the loop of [index], [None] as soon as one turn
    raises. *)
Fixpoint counts_of (db : DB) (names : list string)
  : option (list (string * option cell)) :=
  match names with
  | [] => Some []
  | t :: rest =>
      match count_of db t, counts_of db rest with
      | Some c, Some cs => Some ((t, c) :: cs)
      | _, _ => None
      end
  end.

(** The counting statements leave the contents [db] as they are. *)
Definition counting_reads_only (db : DB) : Prop :=
  forall (t : string) (cur : cursor) (db' : DB),
    run_sql (count_sql t) db = Done cur db' -> db' = db.

(** The inspector answers the four questions of [schema] about the table
    [t]. *)
Definition describable (db : DB) (t : string) : Prop :=
  (exists cols, get_columns db t = Ok cols)
  /\ (exists pk, get_pk_constraint db t = Ok pk)
  /\ (exists fks, get_foreign_keys db t = Ok fks)
  /\ (exists idxs, get_indexes db t = Ok idxs).

(** What [query] leaves committed, from the contents [db]: the driver
    decides which of the two statements ran inside a transaction, and only
    those are undone by the rollback. *)
Definition committed_after (sql : ustr) (db : DB) : DB :=
  if driver_begins set_read_only then db
  else if driver_begins sql then read_only_view db
  else match run_sql sql (read_only_view db) with
       | Done _ db' => db'
       | Failed _ => read_only_view db
       end.

(** What the [with] block of [query] gives, from the outcome of the
    statement on the contents it runs on. *)
Definition block_result (N : Z) (o : outcome DB)
  : result (list string * list (list cell) * nat * bool) :=
  match o with
  | Failed msg => Raise (Exn "DBAPIError" msg)
  | Done NoRows _ => Raise no_rows
  | Done (Rows ks rs) _ =>
      match take_rows N rs with
      | Ok (taken, rest) =>
          Ok (ks, taken, List.length taken, is_some (hd_error rest))
      | Raise e => Raise e
      end
  end.

(** What [query] returns after its [with] block, from what the block
    gives. *)
Definition after_block (N : Z)
  (r : result (list string * list (list cell) * nat * bool))
  : result response :=
  match r with
  | Ok (columns, rows, total, truncated) =>
      try_jsonify 200 (JQuery columns rows total truncated N)
  | Raise exc => Ok (jsonify 422 (JError (exn_str exc)))
  end.

(** The description that [schema] builds of a table from the answers of
    the inspector, an answer that is missing counting for an empty one. *)
Definition table_in (db : DB) (t : string) : table_desc :=
  TableDesc
    (map describe_column
         (match get_columns db t with Ok cols => cols | Raise _ => [] end))
    (pk_columns
       (match get_pk_constraint db t with Ok pk => pk | Raise _ => None end))
    (map describe_fk
         (match get_foreign_keys db t with Ok fks => fks | Raise _ => [] end))
    (map describe_index
         (match get_indexes db t with Ok idxs => idxs | Raise _ => [] end)).

(** The world in which the loop of [index] starts. *)
Definition counting_from (w : world) : world :=
  World (committed w) None false true ((calls w ++ [Connect]) ++ [Inspect]).

(** The answer of [index] when the counting statements write nothing. *)
Definition index_outcome (env : app_env) (db : DB) : response :=
  match get_table_names db with
  | Raise _ => Response 500 Page []
  | Ok names =>
      match counts_of db (sorted names) with
      | Some tables =>
          if counts_serialisable tables
          then jsonify 200 (JIndex (_extract_app_name (_read_fenrir_md env)
                                                      (app_name env))
                                   (_read_fenrir_md env) tables)
          else Response 500 Page []
      | None => Response 500 Page []
      end
  end.

End Statements.


(* ================================================================== *)
(** * Notions used in the further properties *)
(* ================================================================== *)

(** The character U+000A. *)
Definition newline : string := String (ascii_of_nat 10) EmptyString.

(** No character of [s] is a line boundary of [str.splitlines]. *)
Definition one_line (s : string) : bool :=
  PyStr.forallb (fun c => negb (PyStr.is_linebreak c)) s.

(** A string that [lstrip_with p] leaves alone: it is empty or starts
    with a character that is not stripped. *)
Definition lstripped (p : ascii -> bool) (s : string) : Prop :=
  match s with
  | EmptyString => True
  | String c _ => p c = false
  end.

(** [d.get(k)] on a dictionary kept in insertion order. *)
Fixpoint dict_get {V : Type} (k : string) (d : list (string * V)) : option V :=
  match d with
  | [] => None
  | (k', v) :: d' => if String.eqb k k' then Some v else dict_get k d'
  end.

(** The test of [_basic_auth_check] that lets a request go on without a
    look at the secret: the path is the root or starts with a prefix of
    [_skip], or the endpoint is [static]. *)
Definition exempt (cfg : secure_cfg) (req : request) : bool :=
  String.eqb (req_path req) "/"
  || existsb (fun p => PyStr.startswith (req_path req) p) (_skip cfg)
  || opt_eqb (req_endpoint req) "static".

(** The bodies on which the first two lines of [query] raise nothing:
    [get_json(silent=True) or {}] is a dictionary, and its ["sql"], when
    there is one, is a string. *)
Definition body_well_formed (body : pyval) : bool :=
  match py_or body (PDict []) with
  | PDict d =>
      match assoc "sql" d with
      | None | Some (PStr _) => true
      | Some _ => false
      end
  | _ => false
  end.

(** The text is the keyword [kw] and nothing else, each of its characters
    being taken for the letter of the keyword by [same]. *)
Fixpoint is_keyword (same : N -> N -> bool) (kw s : ustr) : bool :=
  match kw, s with
  | [], [] => true
  | k :: kw', x :: s' => same k x && is_keyword same kw' s'
  | _, _ => false
  end.

(** The names of [names] up to the first one that [failing] holds of,
    that one included. *)
Fixpoint through_first (failing : string -> bool) (names : list string)
  : list string :=
  match names with
  | [] => []
  | t :: rest => if failing t then [t] else t :: through_first failing rest
  end.

(** The calls that end the [with] block of [index] after the statements
    [stmts] were executed. *)
Definition closing_calls (stmts : list ustr) : list db_call :=
  match stmts with
  | [] => [Close]
  | _ :: _ => [Rollback; Close]
  end.

(* ================================================================== *)
(** * Facts about strings *)
(* ================================================================== *)

Module PyStrFacts.
Import PyStr.

Lemma append_empty_r (s : string) : s ++ "" = s.
Proof. induction s as [|c s IH]; simpl; [reflexivity | now rewrite IH]. Qed.

Lemma append_assoc (a b c : string) : (a ++ b) ++ c = a ++ (b ++ c).
Proof. induction a as [|x a IH]; simpl; [reflexivity | now rewrite IH]. Qed.

Lemma append_eq_empty (a b : string) : a ++ b = "" -> a = "" /\ b = "".
Proof. destruct a; simpl; intros H; [now split | discriminate]. Qed.

Lemma leading_lstrip (p : ascii -> bool) (s : string) :
  leading p s ++ lstrip_with p s = s.
Proof.
  induction s as [|c s IH]; simpl; [reflexivity|].
  destruct (p c); simpl; [now rewrite IH | reflexivity].
Qed.

Lemma forallb_leading (p : ascii -> bool) (s : string) :
  forallb p (leading p s) = true.
Proof.
  induction s as [|c s IH]; simpl; [reflexivity|].
  destruct (p c) eqn:E; simpl; [now rewrite E | reflexivity].
Qed.

Lemma forallb_append (p : ascii -> bool) (a b : string) :
  forallb p (a ++ b) = forallb p a && forallb p b.
Proof.
  induction a as [|c a IH]; simpl; [reflexivity|].
  now rewrite IH, andb_assoc.
Qed.

(** Stripping goes through a prefix made of stripped characters and
    stops at the first character that is not one. *)
Lemma lstrip_with_append (p : ascii -> bool) (w t : string) :
  forallb p w = true -> lstrip_with p (w ++ t) = lstrip_with p t.
Proof.
  induction w as [|c w IH]; simpl; [reflexivity|].
  intros H. apply andb_true_iff in H as [Hc Hw]. now rewrite Hc, IH.
Qed.

Lemma lstrip_with_stop (p : ascii -> bool) (c : ascii) (t : string) :
  p c = false -> lstrip_with p (String c t) = String c t.
Proof. intros H; simpl; now rewrite H. Qed.

Lemma lstrip_with_empty (p : ascii -> bool) (s : string) :
  lstrip_with p s = "" <-> forallb p s = true.
Proof.
  induction s as [|c s IH]; simpl; [tauto|].
  destruct (p c); simpl; [exact IH | split; discriminate].
Qed.

Lemma rstrip_with_empty (p : ascii -> bool) (s : string) :
  rstrip_with p s = "" <-> forallb p s = true.
Proof.
  induction s as [|c s IH]; simpl; [tauto|].
  destruct (p c); simpl.
  - destruct (rstrip_with p s) eqn:E; simpl.
    + split; [intros _; now apply IH | reflexivity].
    + split; [discriminate|]. intros H. apply IH in H. discriminate.
  - split; discriminate.
Qed.

Lemma forallb_lstrip_with (p q : ascii -> bool) (s : string) :
  forallb q s = true -> forallb q (lstrip_with p s) = true.
Proof.
  induction s as [|c s IH]; simpl; [reflexivity|].
  intros H. apply andb_true_iff in H as [Hc Hs].
  destruct (p c); simpl; [now apply IH | now rewrite Hc, Hs].
Qed.

(** [s.strip()] is empty exactly when [s] is empty or all white space. *)
Lemma strip_empty (s : string) :
  strip s = "" <-> forallb isspace s = true.
Proof.
  unfold strip, rstrip, lstrip. rewrite rstrip_with_empty. split.
  - intros H. rewrite <- (leading_lstrip isspace s), forallb_append.
    now rewrite forallb_leading, H.
  - apply forallb_lstrip_with.
Qed.

Lemma is_empty_true (s : string) : is_empty s = true <-> s = "".
Proof. destruct s; simpl; split; congruence. Qed.

Lemma prefix_append (a s : string) :
  String.prefix a s = true <-> exists q, s = a ++ q.
Proof.
  revert s. induction a as [|c a IH]; intros s.
  - destruct s; simpl; split; eauto.
  - destruct s as [|d s]; simpl.
    + split; [discriminate | intros [q Hq]; discriminate].
    + destruct (ascii_dec c d) as [->|Hne].
      * rewrite IH. split; intros [q Hq]; exists q; congruence.
      * split; [discriminate | intros [q Hq]; congruence].
Qed.

End PyStrFacts.

Module UStrFacts.
Import UStr.
Local Open Scope list_scope.

Lemma ustr_leading_lstrip (p : N -> bool) (s : ustr) :
  (leading p s ++ lstrip_with p s)%list = s.
Proof.
  induction s as [|c s IH]; simpl; [reflexivity|].
  destruct (p c); simpl; [now rewrite IH | reflexivity].
Qed.

Lemma ustr_forallb_leading (p : N -> bool) (s : ustr) :
  forallb p (leading p s) = true.
Proof.
  induction s as [|c s IH]; simpl; [reflexivity|].
  destruct (p c) eqn:E; simpl; [now rewrite E | reflexivity].
Qed.

(** Stripping goes through a prefix made of stripped characters and
    stops at the first character that is not one. *)
Lemma ustr_lstrip_with_append (p : N -> bool) (w t : ustr) :
  forallb p w = true -> lstrip_with p (w ++ t) = lstrip_with p t.
Proof.
  induction w as [|c w IH]; simpl; [reflexivity|].
  intros H. apply andb_true_iff in H as [Hc Hw]. now rewrite Hc, IH.
Qed.

Lemma ustr_lstrip_with_stop (p : N -> bool) (c : N) (t : ustr) :
  p c = false -> lstrip_with p (c :: t) = c :: t.
Proof. intros H; simpl; now rewrite H. Qed.

Lemma ustr_lstrip_with_empty (p : N -> bool) (s : ustr) :
  lstrip_with p s = [] <-> forallb p s = true.
Proof.
  induction s as [|c s IH]; simpl; [tauto|].
  destruct (p c); simpl; [exact IH | split; discriminate].
Qed.

(** What [lstrip_with] leaves is empty or starts with a character that
    is not stripped. *)
Lemma lstrip_with_head (p : N -> bool) (s : ustr) (c : N) (t : ustr) :
  lstrip_with p s = c :: t -> p c = false.
Proof.
  induction s as [|x s IH]; simpl; [discriminate|].
  destruct (p x) eqn:E; [exact IH|]. intros H. injection H as <- _. exact E.
Qed.

Lemma ustr_rstrip_with_empty (p : N -> bool) (s : ustr) :
  rstrip_with p s = [] <-> forallb p s = true.
Proof.
  induction s as [|c s IH]; simpl; [tauto|].
  destruct (p c); simpl.
  - destruct (rstrip_with p s) eqn:E; simpl.
    + split; [intros _; now apply IH | reflexivity].
    + split; [discriminate|]. intros H. apply IH in H. discriminate.
  - split; discriminate.
Qed.

Lemma ustr_forallb_lstrip_with (p q : N -> bool) (s : ustr) :
  forallb q s = true -> forallb q (lstrip_with p s) = true.
Proof.
  induction s as [|c s IH]; simpl; [reflexivity|].
  intros H. apply andb_true_iff in H as [Hc Hs].
  destruct (p c); simpl; [now apply IH | now rewrite Hc, Hs].
Qed.

(** [s.strip()] is empty exactly when [s] is empty or all white space. *)
Lemma ustr_strip_empty (s : ustr) :
  strip s = [] <-> forallb isspace s = true.
Proof.
  unfold strip, rstrip, lstrip. rewrite ustr_rstrip_with_empty. split.
  - intros H. rewrite <- (ustr_leading_lstrip isspace s), forallb_app.
    now rewrite ustr_forallb_leading, H.
  - apply ustr_forallb_lstrip_with.
Qed.

Lemma ustr_is_empty_true (s : ustr) : is_empty s = true <-> s = [].
Proof. destruct s; simpl; split; congruence. Qed.

Lemma rstrip_with_prefix (p : N -> bool) (s : ustr) :
  exists t, s = (rstrip_with p s ++ t)%list.
Proof.
  induction s as [|c s [t IH]]; simpl; [now exists []|].
  destruct (p c && is_empty (rstrip_with p s)).
  - now exists (c :: s).
  - exists t. simpl. now rewrite <- IH.
Qed.

Lemma lstrip_with_append_keep (p : N -> bool) (a b : ustr) :
  is_empty (lstrip_with p a) = false ->
  lstrip_with p (a ++ b) = (lstrip_with p a ++ b)%list.
Proof.
  induction a as [|c a IH]; simpl; [discriminate|].
  destruct (p c); [exact IH | reflexivity].
Qed.

Lemma ustr_rstrip_with_append_drop (p : N -> bool) (a b : ustr) :
  forallb p b = true -> rstrip_with p (a ++ b) = rstrip_with p a.
Proof.
  intros H. induction a as [|c a IH]; simpl.
  - now apply ustr_rstrip_with_empty.
  - now rewrite IH.
Qed.

(** White space around a statement does not change what [strip] gives. *)
Lemma strip_outer_space (before raw after : ustr) :
  forallb isspace before = true -> forallb isspace after = true ->
  strip (before ++ raw ++ after) = strip raw.
Proof.
  intros Hb Ha. unfold strip, lstrip. rewrite (ustr_lstrip_with_append _ _ _ Hb).
  unfold rstrip. destruct (is_empty (lstrip_with isspace raw)) eqn:E.
  - apply ustr_is_empty_true in E. rewrite E.
    apply ustr_lstrip_with_empty in E.
    assert (H : forallb isspace (raw ++ after) = true)
      by now rewrite forallb_app, E, Ha.
    apply ustr_lstrip_with_empty in H. now rewrite H.
  - rewrite (lstrip_with_append_keep _ _ _ E).
    now apply ustr_rstrip_with_append_drop.
Qed.

Lemma rstrip_with_keeps_prefix (p : N -> bool) (b q : ustr) :
  forallb (fun c => negb (p c)) b = true ->
  rstrip_with p (b ++ q) = (b ++ rstrip_with p q)%list.
Proof.
  induction b as [|c b IH]; simpl; [reflexivity|]. intros H.
  apply andb_true_iff in H as [Hc Hb]. apply negb_true_iff in Hc.
  now rewrite Hc, IH.
Qed.

(** The white-space class, character by character. *)
Lemma isspace_true (c : N) :
  isspace c = true <->
  (9 <= c <= 13 \/ 28 <= c <= 32 \/ c = 133 \/ c = 160 \/ c = 5760
   \/ 8192 <= c <= 8202 \/ c = 8232 \/ c = 8233 \/ c = 8239 \/ c = 8287
   \/ c = 12288)%N.
Proof.
  unfold isspace.
  rewrite !orb_true_iff, !andb_true_iff, !N.leb_le, !N.eqb_eq. tauto.
Qed.

Lemma ascii_lower_cases (c : N) :
  ((65 <= c <= 90)%N /\ ascii_lower c = (c + 32)%N)
  \/ (~ (65 <= c <= 90)%N /\ ascii_lower c = c).
Proof.
  unfold ascii_lower.
  destruct (N.leb 65 c && N.leb c 90) eqn:E.
  - apply andb_true_iff in E as [E1 E2]. apply N.leb_le in E1, E2. now left.
  - right. split; [|reflexivity]. intros [H1 H2].
    apply N.leb_le in H1, H2. now rewrite H1, H2 in E.
Qed.

End UStrFacts.

(* ================================================================== *)
(** * The matcher computes the language *)
(* ================================================================== *)

Module RegexFacts.
Import Regex.
Local Open Scope list_scope.

Lemma nullable_matches (r : regex) :
  nullable r = true <-> matches r [].
Proof.
  induction r as [| |p|r1 IH1 r2 IH2|r1 IH1 r2 IH2|r IH]; simpl.
  - split; [discriminate | intros H; inversion H].
  - split; [constructor | reflexivity].
  - split; [discriminate | intros H; inversion H].
  - rewrite andb_true_iff, IH1, IH2. split.
    + intros [H1 H2]. change (@nil N) with (@nil N ++ [])%list. now constructor.
    + intros H. inversion H as [| |? ? s1 s2 H1 H2 E1 E2| | | |]; subst.
      apply app_eq_nil in E2 as [-> ->]. now split.
  - rewrite orb_true_iff, IH1, IH2. split.
    + intros [H|H]; [now apply MAltL | now apply MAltR].
    + intros H; inversion H; subst; tauto.
  - split; [constructor | reflexivity].
Qed.

(** A non-empty member of a starred language starts with a non-empty
    member of the language under the star. *)
Lemma star_cons (r : regex) (c : N) (s : ustr) :
  matches (Star r) (c :: s) ->
  exists s1 s2, s = (s1 ++ s2)%list /\ matches r (c :: s1) /\ matches (Star r) s2.
Proof.
  intros H. remember (Star r) as r0 eqn:Er. remember (c :: s) as s0 eqn:Es.
  revert s Es.
  induction H as [| | | | | |r' s1 s2 H1 _ H2 IH2]; intros t Et;
    try discriminate.
  injection Er as ->.
  destruct s1 as [|d s1]; simpl in Et.
  - now apply IH2.
  - injection Et as -> <-. now exists s1, s2.
Qed.

Lemma deriv_matches (c : N) (r : regex) (s : ustr) :
  matches (deriv c r) s <-> matches r (c :: s).
Proof.
  revert s.
  induction r as [| |p|r1 IH1 r2 IH2|r1 IH1 r2 IH2|r IH]; intros s; simpl.
  - split; intros H; inversion H.
  - split; intros H; inversion H.
  - destruct (p c) eqn:E; split; intros H; inversion H; subst.
    + now constructor.
    + constructor.
    + congruence.
  - assert (Hleft : forall t, matches (Seq (deriv c r1) r2) t ->
                              matches (Seq r1 r2) (c :: t)).
    { intros t H. inversion H as [| |? ? s1 s2 H1 H2| | | |]; subst.
      apply IH1 in H1. change (c :: (s1 ++ s2))%list with ((c :: s1) ++ s2)%list.
      now constructor. }
    assert (Hback : matches (Seq r1 r2) (c :: s) ->
                    matches (Seq (deriv c r1) r2) s \/
                    (nullable r1 = true /\ matches (deriv c r2) s)).
    { intros H. inversion H as [| |? ? s1 s2 H1 H2 E1 E2| | | |]; subst.
      destruct s1 as [|d s1]; simpl in E2.
      - right. split; [now apply nullable_matches|]. subst s2. now apply IH2.
      - injection E2 as -> <-. left. constructor; [now apply IH1 | assumption]. }
    destruct (nullable r1) eqn:Nu; split.
    + intros H. inversion H; subst; [now apply Hleft|].
      change (c :: s) with ([] ++ c :: s)%list.
      constructor; [now apply nullable_matches | now apply IH2].
    + intros H. destruct (Hback H) as [H'|[_ H']];
        [now apply MAltL | now apply MAltR].
    + apply Hleft.
    + intros H. destruct (Hback H) as [H'|[H' _]]; [assumption | discriminate].
  - split; intros H; inversion H; subst.
    + apply MAltL. now apply IH1.
    + apply MAltR. now apply IH2.
    + apply MAltL. now apply IH1.
    + apply MAltR. now apply IH2.
  - split.
    + intros H. inversion H as [| |? ? s1 s2 H1 H2| | | |]; subst.
      apply IH in H1. change (c :: (s1 ++ s2))%list with ((c :: s1) ++ s2)%list.
      now constructor.
    + intros H. apply star_cons in H as (s1 & s2 & -> & H1 & H2).
      constructor; [now apply IH | assumption].
Qed.

(** [re_match r s] holds exactly when a prefix of [s] is in the language
    of [r]. *)
Theorem re_match_prefix (r : regex) (s : ustr) :
  re_match r s = true <-> exists p q, s = (p ++ q)%list /\ matches r p.
Proof.
  revert r. induction s as [|c s IH]; intros r; simpl.
  - rewrite orb_false_r, nullable_matches. split.
    + intros H. now exists [], [].
    + intros (p & q & E & H). symmetry in E.
      apply app_eq_nil in E as [-> _]. assumption.
  - rewrite orb_true_iff, nullable_matches, IH. split.
    + intros [H|(p & q & -> & H)].
      * now exists [], (c :: s).
      * exists (c :: p), q. split; [reflexivity | now apply deriv_matches].
    + intros (p & q & E & H). destruct p as [|d p]; simpl in E.
      * now left.
      * injection E as <- ->. right. exists p, q.
        split; [reflexivity | now apply deriv_matches].
Qed.

End RegexFacts.

(* ================================================================== *)
(** * The language of [_READ_ONLY_RE] *)
(* ================================================================== *)

Module ClassifyFacts.
Import UStr Regex UStrFacts RegexFacts.
Local Open Scope list_scope.

Lemma matches_class (p : N -> bool) (s : ustr) :
  matches (Class p) s <-> exists c, s = [c] /\ p c = true.
Proof.
  split.
  - intros H; inversion H; subst; eauto.
  - intros (c & -> & H). now constructor.
Qed.

Lemma matches_star_class (p : N -> bool) (w : ustr) :
  matches (Star (Class p)) w <-> forallb p w = true.
Proof.
  split.
  - intros H. remember (Star (Class p)) as r eqn:Er.
    induction H as [| | | | | |r' s1 s2 H1 _ H2 IH2]; try discriminate.
    + reflexivity.
    + injection Er as ->. apply matches_class in H1 as (c & -> & Hc).
      simpl. rewrite Hc. now apply IH2.
  - induction w as [|c w IH]; simpl; intros H; [constructor|].
    apply andb_true_iff in H as [Hc Hw].
    change (c :: w) with ([c] ++ w)%list.
    constructor; [now constructor | now apply IH].
Qed.

(** A keyword compiled under [re.IGNORECASE] matches the texts of its
    length whose characters it takes, one by one, for its letters. *)
Lemma matches_lits (kw b : ustr) :
  matches (lits true kw) b <-> is_keyword literal_ignorecase kw b = true.
Proof.
  revert b. induction kw as [|k kw IH]; intros b; simpl.
  - split.
    + intros H; inversion H; reflexivity.
    + destruct b; [constructor | discriminate].
  - split.
    + intros H. inversion H as [| |? ? s1 s2 H1 H2| | | |]; subst.
      unfold lit in H1. apply matches_class in H1 as (x & -> & Hx).
      apply IH in H2. simpl. now rewrite Hx, H2.
    + destruct b as [|x b]; [discriminate|]. intros H.
      apply andb_true_iff in H as [Hx Hb].
      change (x :: b) with ([x] ++ b)%list.
      constructor; [|now apply IH].
      unfold lit. now constructor.
Qed.

Lemma is_keyword_length (same : N -> N -> bool) (kw b : ustr) :
  is_keyword same kw b = true -> List.length b = List.length kw.
Proof.
  revert b. induction kw as [|k kw IH]; intros [|x b]; simpl;
    try discriminate; [reflexivity|].
  intros H. apply andb_true_iff in H as [_ H]. now rewrite (IH b H).
Qed.

Lemma begins_with_iff (same : N -> N -> bool) (kw t : ustr) :
  begins_with same kw t = true <->
  exists b q, t = (b ++ q)%list /\ is_keyword same kw b = true.
Proof.
  revert t. induction kw as [|k kw IH]; intros t; simpl.
  - split; [intros _; now exists [], t|reflexivity].
  - destruct t as [|x t].
    + split; [discriminate|]. intros ([|y b] & q & E & H); discriminate.
    + rewrite andb_true_iff, IH. split.
      * intros [Hx (b & q & -> & Hb)]. exists (x :: b), q. simpl.
        now rewrite Hx, Hb.
      * intros ([|y b] & q & E & H); [discriminate|].
        simpl in E, H. injection E as <- ->.
        apply andb_true_iff in H as [Hx Hb]. split; [exact Hx|].
        now exists b, q.
Qed.

(** What [re.IGNORECASE] takes for a letter. *)
Lemma literal_ignorecase_true (k x : N) :
  literal_ignorecase k x = true <->
  (ascii_lower x = ascii_lower k
   \/ (ascii_lower k = 105 /\ (x = 304 \/ x = 305))
   \/ (ascii_lower k = 115 /\ x = 383)
   \/ (ascii_lower k = 107 /\ x = 8490))%N.
Proof.
  unfold literal_ignorecase. cbv zeta.
  rewrite !orb_true_iff, !andb_true_iff, !orb_true_iff, !N.eqb_eq. tauto.
Qed.

(** What the pattern takes for a letter is not white space. *)
Lemma letter_not_space (k x : N) :
  is_letter k -> literal_ignorecase k x = true -> isspace x = false.
Proof.
  unfold is_letter. intros Hk H. apply literal_ignorecase_true in H.
  destruct (isspace x) eqn:E; [exfalso|reflexivity].
  apply isspace_true in E.
  destruct (ascii_lower_cases x) as [[Hx Ex]|[Hx Ex]]; rewrite Ex in H; lia.
Qed.

(** The same letter up to case is a letter for [re.IGNORECASE] too. *)
Lemma same_letter_ignorecase (k x : N) :
  same_letter k x = true -> literal_ignorecase k x = true.
Proof.
  unfold same_letter. intros H. apply N.eqb_eq in H.
  apply literal_ignorecase_true. now left.
Qed.

(** On a character that is none of the four that [re.IGNORECASE] adds,
    the two comparisons agree. *)
Lemma literal_ignorecase_plain (k x : N) :
  negb (N.eqb x 304 || N.eqb x 305 || N.eqb x 383 || N.eqb x 8490) = true ->
  literal_ignorecase k x = same_letter k x.
Proof.
  intros H. apply negb_true_iff in H.
  apply orb_false_iff in H as [H H4]. apply orb_false_iff in H as [H H3].
  apply orb_false_iff in H as [H1 H2].
  unfold literal_ignorecase, same_letter. cbv zeta.
  rewrite H1, H2, H3, H4. cbn [orb]. now rewrite !andb_false_r, !orb_false_r.
Qed.

Lemma begins_with_ext (same1 same2 : N -> N -> bool) (kw t : ustr) :
  Forall (fun x => forall k, same1 k x = same2 k x) t ->
  begins_with same1 kw t = begins_with same2 kw t.
Proof.
  revert t. induction kw as [|k kw IH]; intros t H; simpl; [reflexivity|].
  destruct t as [|x t]; [reflexivity|].
  apply Forall_cons_iff in H as [Hx Ht]. now rewrite Hx, (IH t Ht).
Qed.

Lemma begins_with_mono (same1 same2 : N -> N -> bool) (kw t : ustr) :
  (forall k x, same1 k x = true -> same2 k x = true) ->
  begins_with same1 kw t = true -> begins_with same2 kw t = true.
Proof.
  intros Hs. revert t. induction kw as [|k kw IH]; intros t; simpl; [trivial|].
  destruct t as [|x t]; [trivial|]. intros H.
  apply andb_true_iff in H as [Hx Ht]. now rewrite (Hs _ _ Hx), (IH t Ht).
Qed.

(** Neither keyword starts with a character that [\s*] could take. *)
Lemma keyword_stops_strip (k : N) (kw' b q : ustr) :
  is_letter k ->
  is_keyword literal_ignorecase (k :: kw') b = true ->
  lstrip (b ++ q) = (b ++ q)%list.
Proof.
  intros Hk H. destruct b as [|x b]; simpl in H; [discriminate|].
  apply andb_true_iff in H as [Hx _]. simpl. unfold lstrip.
  apply ustr_lstrip_with_stop. exact (@letter_not_space k x Hk Hx).
Qed.

Lemma nth_4_of_with (same : N -> N -> bool) (b q : ustr) :
  is_keyword same (U "WITH") b = true ->
  nth_error (b ++ q) 4 = hd_error q.
Proof.
  intros H. apply is_keyword_length in H.
  destruct b as [|b0 [|b1 [|b2 [|b3 [|b4 b]]]]]; simpl in H; try discriminate.
  now destruct q.
Qed.

Lemma letter_S : is_letter 83.
Proof. unfold is_letter. vm_compute. split; discriminate. Qed.

Lemma letter_W : is_letter 87.
Proof. unfold is_letter. vm_compute. split; discriminate. Qed.

Lemma read_only_complete (s : ustr) :
  re_match _READ_ONLY_RE s = true -> ignorecase_read_only s = true.
Proof.
  intros H. apply re_match_prefix in H as (p & q & -> & H).
  unfold _READ_ONLY_RE in H.
  inversion H as [| |? ? w b Hw Hb| | | |]; subst. clear H.
  apply matches_star_class in Hw. unfold ignorecase_read_only, prefix_rule.
  cbv zeta. rewrite <- app_assoc. unfold lstrip at 1 2 3.
  rewrite (ustr_lstrip_with_append _ _ _ Hw). fold (lstrip (b ++ q)).
  inversion Hb as [| | |? ? ? Hsel|? ? ? Hwith| |]; subst; clear Hb.
  - apply (proj1 (matches_lits (U "SELECT") b)) in Hsel.
    rewrite (@keyword_stops_strip 83%N (U "ELECT") b q letter_S Hsel).
    apply orb_true_iff. left. apply begins_with_iff. now exists b, q.
  - inversion Hwith as [| |? ? b1 b2 H1 H2| | | |]; subst. clear Hwith.
    apply (proj1 (matches_lits (U "WITH") b1)) in H1.
    apply matches_class in H2 as (c & -> & Hc).
    rewrite <- app_assoc.
    rewrite (@keyword_stops_strip 87%N (U "ITH") b1 _ letter_W H1).
    apply orb_true_iff. right. apply andb_true_iff. split.
    + apply begins_with_iff. now exists b1, ([c] ++ q)%list.
    + rewrite (@nth_4_of_with _ _ _ H1). simpl. exact Hc.
Qed.

Lemma read_only_sound (s : ustr) :
  ignorecase_read_only s = true -> re_match _READ_ONLY_RE s = true.
Proof.
  unfold ignorecase_read_only, prefix_rule. cbv zeta.
  intros H. apply re_match_prefix.
  rewrite <- (ustr_leading_lstrip isspace s). fold (lstrip s) in *.
  pose proof (ustr_forallb_leading isspace s) as Hw.
  apply matches_star_class in Hw.
  apply orb_true_iff in H as [H|H].
  - apply begins_with_iff in H as (b & q & -> & Hb).
    exists (leading isspace s ++ b)%list, q. split; [now rewrite app_assoc|].
    constructor; [assumption|]. apply MAltL. now apply matches_lits.
  - apply andb_true_iff in H as [H Hc].
    apply begins_with_iff in H as (b & q & E & Hb). rewrite E in *.
    rewrite (@nth_4_of_with _ _ _ Hb) in Hc.
    destruct q as [|c q]; simpl in Hc; [discriminate|].
    exists (leading isspace s ++ (b ++ [c]))%list, q. split.
    + rewrite <- !app_assoc. reflexivity.
    + constructor; [assumption|]. apply MAltR.
      constructor; [now apply matches_lits | now constructor].
Qed.

(** The pattern accepts exactly the statements of the rule, with the
    comparison of [re.IGNORECASE]. *)
Lemma re_match_read_only (s : ustr) :
  re_match _READ_ONLY_RE s = ignorecase_read_only s.
Proof.
  destruct (ignorecase_read_only s) eqn:E.
  - now apply read_only_sound.
  - destruct (re_match _READ_ONLY_RE s) eqn:R; [|reflexivity].
    apply read_only_complete in R. congruence.
Qed.

(** Without the characters that [re.IGNORECASE] adds, the rule of the
    pattern is the rule of the specification. *)
Lemma plain_rule (s : ustr) :
  plain_letters s = true -> ignorecase_read_only s = spec_read_only s.
Proof.
  intros H. unfold ignorecase_read_only, spec_read_only, prefix_rule.
  cbv zeta.
  assert (P : Forall (fun x => forall k, literal_ignorecase k x = same_letter k x)
                     (lstrip s)).
  { apply Forall_forall. intros x Hx k. apply literal_ignorecase_plain.
    unfold plain_letters in H.
    apply (ustr_forallb_lstrip_with isspace) in H. fold (lstrip s) in H.
    rewrite forallb_forall in H. now apply H. }
  now rewrite !(begins_with_ext _ _ _ P).
Qed.

(** What the rule of the specification accepts, the pattern accepts. *)
Lemma spec_rule_accepted (s : ustr) :
  spec_read_only s = true -> ignorecase_read_only s = true.
Proof.
  unfold ignorecase_read_only, spec_read_only, prefix_rule. cbv zeta.
  intros H. apply orb_true_iff in H as [H|H]; apply orb_true_iff.
  - left. revert H. apply begins_with_mono, same_letter_ignorecase.
  - right. apply andb_true_iff in H as [H Hc]. apply andb_true_iff.
    split; [|exact Hc]. revert H.
    apply begins_with_mono, same_letter_ignorecase.
Qed.

End ClassifyFacts.

(** ** C3 *)

(** The statement [WITH], written with U+0130 in place of its I, and
    followed by a space, is classified READ_ONLY, though it does not begin
    with WITH in any case of the letters: the rule of the specification
    fails there. *)
Lemma dotted_i_is_read_only : ~ classified_by_spec_rule.
Proof.
  intros H. specialize (H with_dotted_capital_i). vm_compute in H.
  discriminate H.
Qed.

(** C3 (as amended): a statement is classified READ_ONLY exactly when,
    once its leading white space is removed, it begins with SELECT, or
    with WITH followed by a white-space character, where the letters are
    compared as [re.IGNORECASE] does: in either case, and with U+017F
    taken for S and U+0130 or U+0131 for I.  Every other string is
    classified MUTATING.  Every statement that the rule of the
    specification accepts is READ_ONLY, and on the texts without these
    characters the two rules are the same.  The classification is a
    function of the text alone and looks at its beginning only: what
    follows the keyword does not change it. *)
Theorem classify_prefix_rule :
  forall S : ustr,
    classify S = (if ignorecase_read_only S then READ_ONLY else MUTATING)
    /\ (spec_read_only S = true -> classify S = READ_ONLY)
    /\ (plain_letters S = true ->
        classify S = (if spec_read_only S then READ_ONLY else MUTATING))
    /\ (forall rest, classify S = READ_ONLY ->
                     classify (S ++ rest)%list = READ_ONLY).
Proof.
  intros S. unfold classify. rewrite ClassifyFacts.re_match_read_only.
  split; [reflexivity|]. split; [|split].
  - intros H. now rewrite (@ClassifyFacts.spec_rule_accepted S H).
  - intros H. now rewrite (@ClassifyFacts.plain_rule S H).
  - intros rest H.
    destruct (ignorecase_read_only S) eqn:E; [|discriminate].
    rewrite <- ClassifyFacts.re_match_read_only in E.
    apply RegexFacts.re_match_prefix in E as (p & q & -> & Hp).
    assert (R : Regex.re_match _READ_ONLY_RE ((p ++ q) ++ rest)%list = true).
    { apply RegexFacts.re_match_prefix. exists p, (q ++ rest)%list.
      split; [now rewrite app_assoc | assumption]. }
    now rewrite R.
Qed.

(* ================================================================== *)
(** * The access checks: what they let through and what they answer *)
(* ================================================================== *)

Module AuthFacts.

Lemma require_auth_debug (R : Type) (lift : response -> R)
  (env : app_env) (req : request) (f : R) :
  debug env = true -> _require_auth lift env req f = f.
Proof. intros H. unfold _require_auth. now rewrite H. Qed.

(** The wrapper either calls the view or answers 401. *)
Lemma require_auth_cases (R : Type) (lift : response -> R)
  (env : app_env) (req : request) (f : R) :
  _require_auth lift env req f = f
  \/ _require_auth lift env req f
     = lift (jsonify 401 (JError "FENRIR_API_KEY not configured"))
  \/ _require_auth lift env req f = lift (jsonify 401 (JError "unauthorized")).
Proof.
  unfold _require_auth. destruct (debug env); [now left|].
  destruct (FENRIR_API_KEY env) as [k|]; [|now right; left].
  destruct (PyStr.is_empty k); [now right; left|].
  match goal with |- context [if ?c then _ else _] => destruct c end;
    [now right; right | now left].
Qed.

Lemma skip_members (cfg : secure_cfg) (p : string) :
  In p (_skip cfg) <->
  p = "/fenrir/" \/ p = "/static/"
  \/ exists l, skip_paths cfg = Some l /\ In p l.
Proof.
  unfold _skip. rewrite in_app_iff. simpl.
  destruct (skip_paths cfg) as [[|q l]|].
  - split.
    + intros [[H|[H|[]]]|[]]; auto.
    + intros [H|[H|(l & E & H)]]; auto.
      injection E as <-. destruct H.
  - split.
    + intros [[H|[H|[]]]|H]; auto. right; right. now exists (q :: l).
    + intros [H|[H|(l' & E & H)]]; auto. injection E as <-. now right.
  - split.
    + intros [[H|[H|[]]]|[]]; auto.
    + intros [H|[H|(l & E & H)]]; auto. discriminate.
Qed.

Lemma is_empty_false (s : string) : s <> "" -> PyStr.is_empty s = false.
Proof. destruct s; [congruence | reflexivity]. Qed.

End AuthFacts.

(** ** C10 *)

(** C10: the hook installed by [secure_app] lets a request through, with no
    credential asked and whatever FENRIR_API_KEY is, when its path is
    exactly "/", or starts with "/fenrir/", with "/static/" or with one of
    the configured skip prefixes, or when its endpoint is "static". *)
Theorem basic_auth_check_exempt :
  forall (cfg : secure_cfg) (env : app_env) (req : request),
    (req_path req = "/"
     \/ PyStr.startswith (req_path req) "/fenrir/" = true
     \/ PyStr.startswith (req_path req) "/static/" = true
     \/ (exists l p, skip_paths cfg = Some l /\ In p l
                     /\ PyStr.startswith (req_path req) p = true)
     \/ req_endpoint req = Some "static") ->
    _basic_auth_check cfg env req = None.
Proof.
  intros cfg env req H. unfold _basic_auth_check.
  destruct (debug env); [reflexivity|].
  assert (Skip : forall p, In p (_skip cfg) ->
                           PyStr.startswith (req_path req) p = true ->
                           existsb (fun p => PyStr.startswith (req_path req) p)
                                   (_skip cfg) = true).
  { intros p Hin Hp. apply existsb_exists. now exists p. }
  destruct H as [H|[H|[H|[(l & p & E & Hin & Hp)|H]]]].
  - rewrite H. reflexivity.
  - rewrite (Skip "/fenrir/"), orb_true_r; trivial.
    apply AuthFacts.skip_members. now left.
  - rewrite (Skip "/static/"), orb_true_r; trivial.
    apply AuthFacts.skip_members. now right; left.
  - rewrite (Skip p), orb_true_r; trivial.
    apply AuthFacts.skip_members. right; right. now exists l.
  - rewrite H. simpl. now destruct (_ || _).
Qed.

Lemma basic_auth_check_exempt_witness :
  _basic_auth_check (SecureCfg (Some ["/health"]) None)
                    (AppEnv false None "bookstore" None)
                    (Request GET "/health/live" None Bookstore.no_headers
                             None PNone)
  = None.
Proof.
  apply basic_auth_check_exempt.
  right; right; right; left.
  exists ["/health"], "/health". simpl.
  split; [reflexivity | split; [now left | reflexivity]].
Defined.

(** ** C6 *)

(** The bearer check of the [/fenrir/] views answers 401 both when the
    secret is not configured and when the credential is wrong: the claim of
    different statuses fails there. *)
Lemma bearer_check_same_status :
  ~ misconfigured_differs_in_status bearer_check.
Proof.
  intros H.
  destruct (H "bookstore" None "test-secret-key"
              (Request GET "/fenrir/" None (Bookstore.bearer "wrong") None PNone)
              (jsonify 401 (JError "FENRIR_API_KEY not configured"))
              (jsonify 401 (JError "unauthorized")))
    as (_ & Hstatus & _); try reflexivity; [discriminate|].
  now apply Hstatus.
Qed.

(** C6 (as amended): on a path that the hook of [secure_app] guards, a
    secret that is not configured is answered 503 and a refused credential
    401, two different statuses outside 2xx.  The bearer check of the
    [/fenrir/] views answers 401 in both cases; the two answers differ by
    their error message only. *)
Theorem misconfigured_versus_unauthorized :
  (forall cfg, misconfigured_differs_in_status (_basic_auth_check cfg))
  /\ (forall (name : string) (md : option string) (key : string)
             (req : request) (r_absent r_wrong : response),
         key <> "" ->
         bearer_check (AppEnv false None name md) req = Some r_absent ->
         bearer_check (AppEnv false (Some key) name md) req = Some r_wrong ->
         r_absent = jsonify 401 (JError "FENRIR_API_KEY not configured")
         /\ r_wrong = jsonify 401 (JError "unauthorized")
         /\ r_absent <> r_wrong).
Proof.
  split.
  - intros cfg name md key req r_absent r_wrong Hkey Ha Hw.
    unfold _basic_auth_check in Ha, Hw. simpl in Ha, Hw.
    rewrite (AuthFacts.is_empty_false Hkey) in Hw.
    destruct (_ || _); [discriminate|].
    destruct (opt_eqb _ _); [discriminate|].
    injection Ha as <-.
    assert (E : r_wrong = Response 401 (Text "Authentication required")
                                   www_authenticate).
    { destruct (match api_key_header cfg with Some _ => _ | None => _ end);
        [discriminate|].
      destruct (req_authorization req) as [[pw|]|];
        [destruct (String.eqb pw key); [discriminate|] | |];
        now injection Hw as <-. }
    subst r_wrong. repeat split; discriminate.
  - intros name md key req r_absent r_wrong Hkey Ha Hw.
    unfold bearer_check, _require_auth in Ha, Hw. simpl in Ha, Hw.
    rewrite (AuthFacts.is_empty_false Hkey) in Hw.
    injection Ha as <-.
    destruct (_ || _); [|discriminate]. injection Hw as <-.
    repeat split. discriminate.
Qed.

Lemma misconfigured_versus_unauthorized_witness :
  (let req := Request GET "/admin" None Bookstore.no_headers (Some (Some "wrong")) PNone in
   let r_absent := Response 503 (Text "Not configured") [] in
   let r_wrong := Response 401 (Text "Authentication required") www_authenticate in
   r_absent <> r_wrong
   /\ status r_absent <> status r_wrong
   /\ is_2xx r_absent = false /\ is_2xx r_wrong = false)
  /\ (let r_absent := jsonify 401 (JError "FENRIR_API_KEY not configured") in
      let r_wrong := jsonify 401 (JError "unauthorized") in
      r_absent = jsonify 401 (JError "FENRIR_API_KEY not configured")
      /\ r_wrong = jsonify 401 (JError "unauthorized")
      /\ r_absent <> r_wrong).
Proof.
  destruct misconfigured_versus_unauthorized as [Hook Bearer]. split.
  - apply (Hook (SecureCfg None None) "bookstore" None "test-secret-key"
                (Request GET "/admin" None Bookstore.no_headers
                         (Some (Some "wrong")) PNone));
      [discriminate | reflexivity | reflexivity].
  - apply (Bearer "bookstore" None "test-secret-key"
                  (Request GET "/fenrir/" None (Bookstore.bearer "wrong")
                           None PNone));
      [discriminate | reflexivity | reflexivity].
Defined.

(* ================================================================== *)
(** * The read path *)
(* ================================================================== *)

Section ReadPath.

Context {B : Backend}.



(** The [with] block of [query], run from any world.  The calls it makes
    are the same whether the statement fails or not, and it hands the
    connection back with no transaction in progress; what is committed
    afterwards depends on the driver. *)
Lemma query_block_run (N : Z) (sql : ustr) (w : world) :
  query_block N sql w =
  (block_result N (run_sql sql (read_only_view (committed w))),
   World (committed_after sql (committed w)) None false false
         (calls w ++ read_calls sql)).
Proof.
  unfold query_block, with_connection, connect, bind, conn_begin, suppress,
    try_except, conn_execute, conn_rollback, conn_close, keys, fetchmany,
    fetchone, ret, lift_result, read_calls, committed_after, block_result,
    read_only_view.
  cbn [committed txn begun conn_open calls fst snd].
  destruct (driver_begins set_read_only);
    destruct (run_sql set_read_only (committed w)) as [m0|c0 d0];
    cbn [committed txn begun conn_open calls fst snd];
    destruct (driver_begins sql);
    cbn [committed txn begun conn_open calls fst snd];
    (destruct (run_sql sql _) as [m|[ks rs|] d];
     cbn [committed txn begun conn_open calls fst snd];
     [ | destruct (take_rows N rs) as [[taken [|r rest]]|e];
         cbn [committed txn begun conn_open calls fst snd is_some hd_error] | ]);
    rewrite <- ?app_assoc; reflexivity.
Qed.

(** What [query] does with a body, in terms of the statement it finds. *)
Lemma query_rejects_blank (N : Z) (req : request) (w : world) :
  sql_missing_or_blank (req_json req) ->
  query N req w = (Ok (jsonify 400 (JError "missing 'sql' field")), w).
Proof.
  intros [H|(d & E & [H|(s & H & Hs)])]; unfold query, py_or.
  - rewrite H. reflexivity.
  - rewrite E. destruct d as [|kv d]; simpl; [reflexivity|].
    simpl in H. unfold bind, lift_result. rewrite H. reflexivity.
  - rewrite E. destruct d as [|kv d]; [discriminate|].
    cbn [truthy py_get bind lift_result]. rewrite H.
    cbn [py_strip]. apply UStrFacts.ustr_strip_empty in Hs. rewrite Hs.
    reflexivity.
Qed.

Lemma posts_sql_get (req : request) (raw : ustr) :
  posts_sql req raw ->
  py_get (py_or (req_json req) (PDict [])) "sql" (PStr []) = Ok (PStr raw).
Proof.
  intros (d & E & H). unfold py_or. rewrite E.
  destruct d as [|kv d]; [discriminate|]. simpl truthy. cbn [py_get].
  now rewrite H.
Qed.

Lemma query_posted (N : Z) (req : request) (raw : ustr) :
  posts_sql req raw ->
  query N req =
  let sql := UStr.strip raw in
  if UStr.is_empty sql
  then ret (jsonify 400 (JError "missing 'sql' field"))
  else if negb (Regex.re_match _READ_ONLY_RE sql)
  then ret (jsonify 400 (JError "only SELECT (or WITH ... SELECT) allowed"))
  else
    try_except
      (query_block N sql)
      (fun '(columns, rows, total, truncated) =>
         lift_result
           (try_jsonify 200 (JQuery columns rows total truncated N)))
      (fun exc => ret (jsonify 422 (JError (exn_str exc)))).
Proof.
  intros H. unfold query. rewrite (posts_sql_get H). reflexivity.
Qed.

Lemma matched_not_empty (sql : ustr) :
  Regex.re_match _READ_ONLY_RE sql = true -> UStr.is_empty sql = false.
Proof. destruct sql; [discriminate | reflexivity]. Qed.

Lemma classify_read_only (s : ustr) :
  classify s = READ_ONLY <-> Regex.re_match _READ_ONLY_RE s = true.
Proof.
  unfold classify. destruct (Regex.re_match _READ_ONLY_RE s);
    split; congruence.
Qed.

Lemma classify_mutating (s : ustr) :
  classify s = MUTATING <-> Regex.re_match _READ_ONLY_RE s = false.
Proof.
  unfold classify. destruct (Regex.re_match _READ_ONLY_RE s);
    split; congruence.
Qed.

(** The run of [try: block  except: ...] followed by the last
    [jsonify]. *)
Lemma try_block_run (N : Z) (sql : ustr) (w : world) :
  try_except
    (query_block N sql)
    (fun '(columns, rows, total, truncated) =>
       lift_result (try_jsonify 200 (JQuery columns rows total truncated N)))
    (fun exc => ret (jsonify 422 (JError (exn_str exc)))) w
  = (after_block N (block_result N (run_sql sql (read_only_view (committed w)))),
     World (committed_after sql (committed w)) None false false
           (calls w ++ read_calls sql)).
Proof.
  unfold try_except. rewrite query_block_run.
  destruct (block_result N _) as [[[[ks rows] total] truncated]|e];
    reflexivity.
Qed.

(** [query] on a statement that it accepts. *)
Lemma query_accepted (N : Z) (req : request) (raw : ustr) (w : world) :
  posts_sql req raw ->
  classify (UStr.strip raw) = READ_ONLY ->
  query N req w =
  (after_block N
     (block_result N
        (run_sql (UStr.strip raw) (read_only_view (committed w)))),
   World (committed_after (UStr.strip raw) (committed w)) None false false
         (calls w ++ read_calls (UStr.strip raw))).
Proof.
  intros Hb Hc. apply classify_read_only in Hc.
  rewrite (query_posted N Hb). cbv zeta.
  rewrite (@matched_not_empty _ Hc), Hc. cbn [negb].
  apply try_block_run.
Qed.

(** The world that [query] leaves: the one it found, or the one left by
    its [with] block. *)
Lemma query_world (N : Z) (req : request) (w : world) :
  snd (query N req w) = w
  \/ exists sql,
      Regex.re_match _READ_ONLY_RE sql = true
      /\ snd (query N req w)
         = World (committed_after sql (committed w)) None false false
                 (calls w ++ read_calls sql).
Proof.
  unfold query, bind, lift_result.
  destruct (py_get _ _ _) as [o|e]; [|now left].
  destruct (py_strip o) as [sql|e]; [|now left].
  destruct (UStr.is_empty sql); [now left|].
  destruct (Regex.re_match _READ_ONLY_RE sql) eqn:R; [|now left].
  right. exists sql. split; [exact R|]. cbn [negb].
  now rewrite try_block_run.
Qed.

(** The response of [query] depends on the committed contents only. *)
Lemma query_reads_committed (N : Z) (req : request) (w1 w2 : world) :
  committed w1 = committed w2 ->
  fst (query N req w1) = fst (query N req w2).
Proof.
  intros H. unfold query, bind, lift_result.
  destruct (py_get _ _ _) as [o|e]; [|reflexivity].
  destruct (py_strip o) as [sql|e]; [|reflexivity].
  destruct (UStr.is_empty sql); [reflexivity|].
  destruct (negb _); [reflexivity|].
  now rewrite !try_block_run, H.
Qed.

End ReadPath.

(* ================================================================== *)
(** * Requests through the application *)
(* ================================================================== *)

Section Routing.

Context {B : Backend}.

Lemma basic_auth_check_fenrir (cfg : secure_cfg) (env : app_env)
  (req : request) :
  PyStr.startswith (req_path req) "/fenrir/" = true ->
  _basic_auth_check cfg env req = None.
Proof.
  intros H. unfold _basic_auth_check. destruct (debug env); [reflexivity|].
  unfold _skip. cbn [app existsb]. rewrite H, orb_true_r. reflexivity.
Qed.

Lemma require_auth_pass (env : app_env) (req : request) :
  bearer_check env req = None ->
  forall (R : Type) (lift : response -> R) (f : R),
    _require_auth lift env req f = f.
Proof.
  unfold bearer_check, _require_auth. intros H R lift f.
  destruct (debug env); [reflexivity|].
  destruct (FENRIR_API_KEY env) as [k|]; [|discriminate].
  destruct (PyStr.is_empty k); [discriminate|].
  destruct (_ || _); [discriminate | reflexivity].
Qed.

Lemma handle_dispatch (secure : option secure_cfg) (N : Z)
  (env : app_env) (req : request) (w : world) :
  PyStr.startswith (req_path req) "/fenrir/" = true ->
  handle secure N env req w = answer (dispatch N env req) w.
Proof.
  intros H. unfold handle. destruct secure as [cfg|]; [|reflexivity].
  now rewrite basic_auth_check_fenrir.
Qed.

(** An authorized [POST /fenrir/query] runs the view [query]. *)
Lemma handle_query (secure : option secure_cfg) (N : Z)
  (env : app_env) (req : request) (w : world) :
  req_path req = "/fenrir/query" -> req_method req = POST ->
  bearer_check env req = None ->
  handle secure N env req w = answer (query N req) w.
Proof.
  intros Hp Hm Ha. rewrite handle_dispatch by now rewrite Hp.
  unfold dispatch. rewrite Hp, Hm. cbn.
  now rewrite (require_auth_pass env req Ha).
Qed.

(** No rule of the blueprint matches [/fenrir/execute]: whatever the
    method, the headers and the body, the request is answered 404 and
    the engine is not used. *)
Lemma handle_execute (secure : option secure_cfg) (N : Z)
  (env : app_env) (m : http_method) (e : option string)
  (h : string -> option string) (a : option (option string))
  (body : pyval) (w : world) :
  handle secure N env (Request m "/fenrir/execute" e h a body) w
  = (Response 404 Page [], w).
Proof.
  rewrite handle_dispatch by reflexivity. reflexivity.
Qed.

(** The statement that reaches the pattern is the posted one without
    the white space around it; what the pattern accepts there it accepts
    in the posted statement too. *)
Lemma strip_match_raw (raw : ustr) :
  Regex.re_match _READ_ONLY_RE (UStr.strip raw) = true ->
  Regex.re_match _READ_ONLY_RE raw = true.
Proof.
  intros H. apply RegexFacts.re_match_prefix in H as (p & q & E & H).
  apply RegexFacts.re_match_prefix.
  unfold UStr.strip, UStr.rstrip in E.
  destruct (UStrFacts.rstrip_with_prefix UStr.isspace (UStr.lstrip raw))
    as [t Ht].
  rewrite E in Ht. unfold _READ_ONLY_RE in H.
  inversion H as [| |? ? ws b Hws Hb| | | |]; subst.
  exists ((UStr.leading UStr.isspace raw ++ ws) ++ b)%list, (q ++ t)%list.
  split.
  - rewrite <- (UStrFacts.ustr_leading_lstrip UStr.isspace raw) at 1.
    fold (UStr.lstrip raw). rewrite Ht.
    now rewrite <- !app_assoc.
  - constructor; [|assumption].
    apply ClassifyFacts.matches_star_class.
    apply ClassifyFacts.matches_star_class in Hws.
    now rewrite forallb_app, UStrFacts.ustr_forallb_leading.
Qed.

(** [query] answers a statement classified MUTATING with 400 and does
    not use the engine. *)
Lemma query_rejects_mutating (N : Z) (req : request) (raw : ustr)
  (w : world) :
  posts_sql req raw -> classify raw = MUTATING ->
  exists msg, query N req w = (Ok (jsonify 400 (JError msg)), w).
Proof.
  intros Hb Hc. rewrite (query_posted N Hb). cbv zeta.
  destruct (UStr.is_empty (UStr.strip raw)); [eexists; reflexivity|].
  destruct (Regex.re_match _READ_ONLY_RE (UStr.strip raw)) eqn:E.
  - apply strip_match_raw in E. apply classify_mutating in Hc. congruence.
  - eexists; reflexivity.
Qed.

Lemma answer_world (m : M response) (w : world) :
  snd (answer m w) = snd (m w).
Proof. unfold answer. now destruct (m w) as [[r|e] w']. Qed.

End Routing.

(* ================================================================== *)
(** * The claims about the endpoints *)
(* ================================================================== *)

Section Endpoints.

Context {B : Backend}.

(** ** C2 *)


(** ** C7 *)

(** C7: an authorized [POST /fenrir/query] whose body has no [sql], or an
    [sql] that is empty or all white space, is answered 400 and the world
    is left as it was: no call reaches the engine.  The same request to
    [/fenrir/execute] does not reach the engine either, but it is
    answered 404, for the blueprint has no such rule. *)
Theorem blank_sql_rejected :
  (forall (secure : option secure_cfg) (N : Z) (env : app_env)
          (req : request) (w : world),
      req_path req = "/fenrir/query" -> req_method req = POST ->
      bearer_check env req = None ->
      sql_missing_or_blank (req_json req) ->
      handle secure N env req w
      = (jsonify 400 (JError "missing 'sql' field"), w))
  /\ (forall (secure : option secure_cfg) (N : Z) (env : app_env)
             (h : string -> option string) (w : world),
         handle secure N env
                (Request POST "/fenrir/execute" None h None (PDict [])) w
         = (Response 404 Page [], w)).
Proof.
  split.
  - intros secure N env req w Hp Hm Ha Hb.
    rewrite (@handle_query B secure N env req w Hp Hm Ha). unfold answer.
    now rewrite (@query_rejects_blank B N req w Hb).
  - intros. apply handle_execute.
Qed.

(** ** C5 *)

(** C5: an authorized [POST /fenrir/query] whose statement is classified
    MUTATING is answered 400 and does not use the engine.  A SELECT
    posted to [/fenrir/execute] is answered 404, not 400: the blueprint
    has no such rule. *)
Theorem cross_classification :
  (forall (secure : option secure_cfg) (N : Z) (env : app_env)
          (req : request) (raw : ustr) (w : world),
      req_path req = "/fenrir/query" -> req_method req = POST ->
      bearer_check env req = None ->
      posts_sql req raw -> classify raw = MUTATING ->
      exists msg,
        handle secure N env req w = (jsonify 400 (JError msg), w))
  /\ (forall (secure : option secure_cfg) (N : Z) (env : app_env)
             (h : string -> option string) (w : world),
         handle secure N env
                (Request POST "/fenrir/execute" None h None
                         (PDict [("sql", PStr (U "SELECT * FROM author"))])) w
         = (Response 404 Page [], w)).
Proof.
  split.
  - intros secure N env req raw w Hp Hm Ha Hb Hc.
    destruct (@query_rejects_mutating B N req raw w Hb Hc) as [msg E].
    exists msg. rewrite (@handle_query B secure N env req w Hp Hm Ha). unfold answer.
    now rewrite E.
  - intros. apply handle_execute.
Qed.

(** ** C9 *)

Lemma index_same_env (e1 e2 : app_env) :
  same_but_secret e1 e2 -> index e1 = index e2.
Proof.
  intros (_ & Hn & Hf). unfold index, _read_fenrir_md. now rewrite Hn, Hf.
Qed.

Lemma query_same_body (N : Z) (r1 r2 : request) :
  req_json r1 = req_json r2 -> query N r1 = query N r2.
Proof. intros H. unfold query. now rewrite H. Qed.

(** C9: when the application runs in debug mode, the hook of
    [secure_app] lets every request through and the wrapper of the views
    calls the view at once.  Two requests that differ in their headers
    and credentials only, handled under environments that differ in the
    configured secret only, get the same answer and leave the same
    world. *)
Theorem debug_bypasses_auth :
  forall (secure : option secure_cfg) (N : Z) (env1 env2 : app_env)
         (req1 req2 : request) (w : world),
    debug env1 = true ->
    same_but_secret env1 env2 ->
    same_but_credentials req1 req2 ->
    handle secure N env1 req1 w = handle secure N env2 req2 w
    /\ (forall cfg, _basic_auth_check cfg env1 req1 = None)
    /\ (forall (R : Type) (lift : response -> R) (f : R),
           _require_auth lift env1 req1 f = f).
Proof.
  intros secure N env1 env2 req1 req2 w Hd He Hr.
  assert (Hd2 : debug env2 = true) by (destruct He as [<- _]; exact Hd).
  assert (Hook : forall cfg env req, debug env = true ->
                                     _basic_auth_check cfg env req = None).
  { intros cfg env req H. unfold _basic_auth_check. now rewrite H. }
  repeat split.
  - assert (D : dispatch N env1 req1 = dispatch N env2 req2).
    { destruct Hr as (Hm & Hp & _ & Hj). unfold dispatch. cbv zeta.
      rewrite Hp, Hm.
      assert (V : forall ms v,
                 find_rule (req_path req2) (create_fenrir_bp N) = Some (ms, v) ->
                 v env1 req1 = v env2 req2).
      { unfold create_fenrir_bp, find_rule. intros ms v.
        destruct (String.eqb (req_path req2) "/fenrir/");
          [|destruct (String.eqb (req_path req2) "/fenrir/schema");
            [|destruct (String.eqb (req_path req2) "/fenrir/query");
              [|discriminate]]];
          intros E; injection E as _ <-;
          rewrite !AuthFacts.require_auth_debug by assumption.
        - now apply index_same_env.
        - reflexivity.
        - now apply query_same_body. }
      destruct (find_rule (req_path req2) (create_fenrir_bp N)) as [[ms v]|];
        [|reflexivity].
      destruct (allows ms (req_method req2)); [|reflexivity].
      now apply (V ms). }
    unfold handle. destruct secure as [cfg|]; [|now rewrite D].
    rewrite !Hook by assumption. now rewrite D.
  - intros cfg. now apply Hook.
  - intros R lift f. now apply AuthFacts.require_auth_debug.
Qed.

End Endpoints.

(* ================================================================== *)
(** * Sorting table names *)
(* ================================================================== *)

Module SortFacts.

Lemma ascii_compare_refl (a : ascii) : Ascii.compare a a = Eq.
Proof. unfold Ascii.compare. apply N.compare_refl. Qed.

Lemma ascii_compare_lt_trans (a b c : ascii) :
  Ascii.compare a b = Lt -> Ascii.compare b c = Lt -> Ascii.compare a c = Lt.
Proof.
  unfold Ascii.compare. rewrite !N.compare_lt_iff. apply N.lt_trans.
Qed.

Lemma str_le_trans (a b c : string) : str_le a b -> str_le b c -> str_le a c.
Proof.
  unfold str_le, String.leb. revert b c.
  induction a as [|x a IH]; intros [|y b] [|z c]; simpl; try congruence.
  destruct (Ascii.compare x y) eqn:Exy; try congruence;
    destruct (Ascii.compare y z) eqn:Eyz; try congruence.
  - apply Ascii.compare_eq_iff in Exy, Eyz. subst.
    rewrite ascii_compare_refl. apply IH.
  - apply Ascii.compare_eq_iff in Exy. subst. now rewrite Eyz.
  - apply Ascii.compare_eq_iff in Eyz. subst. now rewrite Exy.
  - now rewrite (ascii_compare_lt_trans _ _ _ Exy Eyz).
Qed.

Lemma str_le_total (a b : string) : String.leb a b = false -> str_le b a.
Proof.
  intros H. destruct (String.leb_total a b) as [E|E]; [congruence | exact E].
Qed.

Lemma insert_sorted_perm (x : string) (l : list string) :
  Permutation (x :: l) (insert_sorted x l).
Proof.
  induction l as [|y l IH]; simpl; [reflexivity|].
  destruct (String.leb x y); [reflexivity|].
  rewrite perm_swap. now constructor.
Qed.

Lemma sorted_perm (l : list string) : Permutation l (sorted l).
Proof.
  induction l as [|x l IH]; simpl; [constructor|].
  rewrite <- insert_sorted_perm. now constructor.
Qed.

Lemma insert_sorted_sorted (x : string) (l : list string) :
  StronglySorted str_le l -> StronglySorted str_le (insert_sorted x l).
Proof.
  induction l as [|y l IH]; simpl; intros H.
  - repeat constructor.
  - apply StronglySorted_inv in H as [Hl Hy].
    destruct (String.leb x y) eqn:E.
    + constructor; [now constructor|]. constructor; [exact E|].
      eapply Forall_impl; [|exact Hy]. intros a. now apply str_le_trans.
    + constructor; [now apply IH|].
      eapply Permutation_Forall; [apply insert_sorted_perm|].
      constructor; [now apply str_le_total | exact Hy].
Qed.

(** [sorted] puts the names in code-point order and keeps them all. *)
Lemma sorted_sorted (l : list string) : StronglySorted str_le (sorted l).
Proof.
  induction l as [|x l IH]; simpl; [constructor|].
  now apply insert_sorted_sorted.
Qed.

Lemma sorted_snoc (l : list string) (k : string) :
  StronglySorted str_le l -> Forall (fun a => str_le a k) l ->
  StronglySorted str_le (l ++ [k]).
Proof.
  induction l as [|x l IH]; simpl; intros Hs Hk; [repeat constructor|].
  apply StronglySorted_inv in Hs as [Hl Hx].
  apply Forall_cons_iff in Hk as [Hxk Hlk].
  constructor; [now apply IH|].
  apply Forall_app. split; [exact Hx | now constructor].
Qed.

(** ** The keys of a dictionary filled in order *)

Lemma keys_dict_set (V : Type) (k : string) (v : V) (d : list (string * V)) :
  map fst (dict_set k v d) =
  if existsb (String.eqb k) (map fst d) then map fst d
  else (map fst d ++ [k])%list.
Proof.
  induction d as [|[k' v'] d IH]; simpl; [reflexivity|].
  destruct (String.eqb k k'); simpl; [reflexivity|].
  rewrite IH. now destruct (existsb _ _).
Qed.

Lemma existsb_eqb_in (k : string) (l : list string) :
  existsb (String.eqb k) l = true <-> In k l.
Proof.
  rewrite existsb_exists. split.
  - intros (x & Hx & E). apply String.eqb_eq in E. now subst.
  - intros H. exists k. split; [assumption | apply String.eqb_refl].
Qed.

(** Filling a dictionary with the names of a sorted list, in order,
    leaves its keys sorted and distinct. *)
Lemma fill_keys (V : Type) (f : string -> V) (rest : list string) :
  forall acc : list (string * V),
    StronglySorted str_le rest ->
    StronglySorted str_le (map fst acc) -> NoDup (map fst acc) ->
    Forall (fun a => Forall (str_le a) rest) (map fst acc) ->
    let r := fold_left (fun d t => dict_set t (f t) d) rest acc in
    StronglySorted str_le (map fst r) /\ NoDup (map fst r)
    /\ forall n, In n (map fst r) <-> In n (map fst acc) \/ In n rest.
Proof.
  induction rest as [|k rest IH]; intros acc Hrest Hs Hn Hle; simpl.
  - repeat split; [assumption | assumption | tauto | tauto].
  - apply StronglySorted_inv in Hrest as [Hrest' Hk].
    assert (Hle' : Forall (fun a => Forall (str_le a) rest) (map fst acc)).
    { eapply Forall_impl; [|exact Hle]. intros a Ha.
      now apply Forall_cons_iff in Ha. }
    assert (Hlek : Forall (fun a => str_le a k) (map fst acc)).
    { eapply Forall_impl; [|exact Hle]. intros a Ha.
      now apply Forall_cons_iff in Ha. }
    pose proof (keys_dict_set k (f k) acc) as K.
    destruct (existsb (String.eqb k) (map fst acc)) eqn:E.
    + apply existsb_eqb_in in E.
      destruct (IH (dict_set k (f k) acc)) as (S1 & N1 & M1);
        rewrite ?K; try assumption.
      repeat split; [assumption | assumption | |].
      * intros H. apply M1 in H. rewrite K in H. tauto.
      * intros [H|[<-|H]]; apply M1; rewrite K; tauto.
    + assert (Hnot : ~ In k (map fst acc)).
      { intros H. apply existsb_eqb_in in H. congruence. }
      destruct (IH (dict_set k (f k) acc)) as (S1 & N1 & M1);
        rewrite ?K; try assumption.
      * now apply sorted_snoc.
      * apply NoDup_app; [assumption | repeat constructor; intros [] |].
        intros a Ha [<-|[]]. contradiction.
      * apply Forall_app. split; [assumption | now constructor].
      * repeat split; [assumption | assumption | |].
        -- intros H. apply M1 in H. rewrite K, in_app_iff in H.
           simpl in H. tauto.
        -- intros H. apply M1. rewrite K, in_app_iff. simpl. tauto.
Qed.

End SortFacts.

(* ================================================================== *)
(** * Introspection *)
(* ================================================================== *)

Section Introspection.

Context {B : Backend}.

Lemma for_each_cons (A C : Type) (f : A -> M C) (a : A) (l : list A)
  (w : world) :
  for_each f (a :: l) w =
  match f a w with
  | (Ok c, w') =>
      match for_each f l w' with
      | (Ok cs, w'') => (Ok (c :: cs), w'')
      | (Raise e, w'') => (Raise e, w'')
      end
  | (Raise e, w') => (Raise e, w')
  end.
Proof.
  simpl. unfold bind. destruct (f a w) as [[c|e] w']; [|reflexivity].
  destruct (for_each f l w') as [[cs|e] w'']; reflexivity.
Qed.

Lemma count_rows_name (t : string) (w : world) (c : string * option cell)
  (w' : world) :
  count_rows t w = (Ok c, w') -> fst c = t.
Proof.
  unfold count_rows, bind, conn_execute.
  destruct (txn w) as [seen|]; [|destruct (driver_begins _)];
    destruct (run_sql _ _) as [m|[ks [|[|v r] rs]|] db']; simpl;
    intros H; inversion H; reflexivity.
Qed.

(** The list that the loop of [index] builds names the tables in the
    order of the loop, whatever the statements do. *)
Lemma count_loop_names (l : list string) :
  forall (w : world) (cs : list (string * option cell)),
    fst (for_each count_rows l w) = Ok cs -> map fst cs = l.
Proof.
  induction l as [|t l IH]; intros w cs.
  - simpl. intros E. now inversion E.
  - rewrite for_each_cons.
    destruct (count_rows t w) as [[c|e] v] eqn:C; [|discriminate].
    specialize (IH v).
    destruct (for_each count_rows l v) as [[cs'|e] v']; [|discriminate].
    simpl. intros E. inversion E. subst cs. simpl.
    now rewrite (count_rows_name _ _ C), (IH cs' eq_refl).
Qed.

(** One turn of the loop of [index], when the counting statements write
    nothing: the count is the one of the committed contents, which stay
    as they were. *)
Lemma count_rows_value (db : DB) (t : string) (u : world) :
  counting_reads_only db -> committed u = db ->
  (txn u = None \/ txn u = Some db) ->
  match count_of db t with
  | Some c => fst (count_rows t u) = Ok (t, c)
  | None => exists e, fst (count_rows t u) = Raise e
  end
  /\ snd (count_rows t u)
     = World db (txn (snd (count_rows t u))) true (conn_open u)
             (calls u ++ [Execute (count_sql t)])
  /\ (txn (snd (count_rows t u)) = None
      \/ txn (snd (count_rows t u)) = Some db).
Proof.
  intros Hro Hc Ht. unfold count_of, count_rows, bind, conn_execute.
  destruct Ht as [Ht|Ht]; rewrite Ht; [destruct (driver_begins _)|];
    rewrite ?Hc;
    (destruct (run_sql (count_sql t) db) as [m|cur d] eqn:E;
     [ cbn; repeat split; eauto
     | pose proof (Hro _ _ _ E) as ->;
       destruct cur as [ks [|[|v r] rs]|]; cbn; repeat split; eauto ]).
Qed.

Lemma count_loop_value (db : DB) (l : list string) :
  counting_reads_only db ->
  forall u : world,
    committed u = db -> (txn u = None \/ txn u = Some db) ->
    match counts_of db l with
    | Some cs => fst (for_each count_rows l u) = Ok cs
    | None => exists e, fst (for_each count_rows l u) = Raise e
    end
    /\ committed (snd (for_each count_rows l u)) = db.
Proof.
  intros Hro. induction l as [|t l IH]; intros u Hc Ht.
  - split; [reflexivity | exact Hc].
  - rewrite for_each_cons. cbn [counts_of].
    destruct (count_rows_value t u Hro Hc Ht) as (Hv & Hw & Ht').
    destruct (count_rows t u) as [[c|e] v]; cbn [fst snd] in Hv, Hw, Ht'.
    + assert (Hc' : committed v = db) by (rewrite Hw; reflexivity).
      destruct (IH v Hc' Ht') as [IH1 IH2].
      destruct (count_of db t) as [c'|]; [|destruct Hv; discriminate].
      assert (c = (t, c')) by congruence. subst c.
      destruct (counts_of db l) as [cs|].
      * destruct (for_each count_rows l v) as [[cs'|e] v'];
          cbn [fst snd] in IH1, IH2 |- *; split; congruence.
      * destruct IH1 as [e IH1].
        destruct (for_each count_rows l v) as [[cs'|e'] v'];
          cbn [fst snd] in IH1, IH2 |- *;
          [discriminate | split; [now eexists | assumption]].
    + assert (Hc' : committed v = db) by (rewrite Hw; reflexivity).
      destruct (count_of db t); [discriminate|]. cbn [fst snd].
      split; [now eexists | assumption].
Qed.

Lemma conn_close_committed (w : world) :
  committed (snd (conn_close w)) = committed w.
Proof. reflexivity. Qed.

Lemma index_unfold (env : app_env) (w : world) :
  answer (index env) w =
  match get_table_names (committed w) with
  | Raise e => (Response 500 Page [], snd (conn_close (counting_from w)))
  | Ok names =>
      match for_each count_rows (sorted names) (counting_from w) with
      | (Ok tables, v) =>
          (if counts_serialisable tables
           then jsonify 200 (JIndex (_extract_app_name (_read_fenrir_md env)
                                                       (app_name env))
                                    (_read_fenrir_md env) tables)
           else Response 500 Page [],
           snd (conn_close v))
      | (Raise e, v) => (Response 500 Page [], snd (conn_close v))
      end
  end.
Proof.
  unfold answer, index, bind, with_connection, connect, inspector, log,
    lift_result, try_jsonify, serialisable, counting_from.
  cbn [committed txn begun conn_open calls fst snd].
  destruct (get_table_names (committed w)) as [names|e]; [|reflexivity].
  destruct (for_each count_rows _ _) as [[tables|e] v]; [|reflexivity].
  cbn [fst snd]. now destruct (counts_serialisable tables).
Qed.

(** [index] when the counting statements write nothing: the answer is a
    function of the committed contents, which it leaves as they were. *)
Lemma index_answer (env : app_env) (w : world) :
  counting_reads_only (committed w) ->
  fst (answer (index env) w) = index_outcome env (committed w)
  /\ committed (snd (answer (index env) w)) = committed w.
Proof.
  intros Hro. rewrite index_unfold. unfold index_outcome.
  destruct (get_table_names (committed w)) as [names|e];
    [|split; reflexivity].
  destruct (@count_loop_value (committed w) (sorted names) Hro
              (counting_from w) eq_refl (or_introl eq_refl)) as [H K].
  destruct (counts_of _ _) as [cs|].
  - destruct (for_each count_rows _ _) as [[cs'|e] v]; cbn [fst snd] in H, K |- *;
      [|discriminate].
    assert (cs' = cs) by congruence. subst cs'. split; [reflexivity | exact K].
  - destruct H as [e H].
    destruct (for_each count_rows _ _) as [[cs'|e'] v]; cbn [fst snd] in H, K |- *;
      [discriminate | split; [reflexivity | exact K]].
Qed.

(** Whatever the counting statements do, a list that [index] returns
    names the tables in sorted order. *)
Lemma index_names (env : app_env) (w : world) (names : list string)
  (name : string) (md : option string)
  (tables : list (string * option cell)) :
  get_table_names (committed w) = Ok names ->
  fst (answer (index env) w) = jsonify 200 (JIndex name md tables) ->
  map fst tables = sorted names.
Proof.
  intros Hn. rewrite index_unfold, Hn.
  destruct (for_each count_rows _ _) as [[cs|e] v] eqn:E; cbn [fst];
    [|discriminate].
  destruct (counts_serialisable cs); [|discriminate].
  intros H. injection H as _ _ <-.
  apply (@count_loop_names (sorted names) (counting_from w)).
  now rewrite E.
Qed.

(** ** The loop of [schema] *)

Lemma describe_table_keeps (t : string) (w : world) :
  committed (snd (describe_table t w)) = committed w.
Proof.
  unfold describe_table, bind, inspector, log.
  cbn [committed txn begun conn_open calls fst snd].
  destruct (get_columns _ _); [|reflexivity].
  cbn [committed]. destruct (get_pk_constraint _ _); [|reflexivity].
  cbn [committed]. destruct (get_foreign_keys _ _); [|reflexivity].
  cbn [committed]. destruct (get_indexes _ _); reflexivity.
Qed.

Lemma describe_table_run (t : string) (w : world) :
  describable (committed w) t ->
  fst (describe_table t w) = Ok (table_in (committed w) t).
Proof.
  intros ((cols & Hc) & (pk & Hp) & (fks & Hf) & (idxs & Hi)).
  unfold describe_table, table_in, bind, inspector, log.
  cbn [committed txn begun conn_open calls fst snd].
  rewrite Hc. cbn [committed]. rewrite Hp. cbn [committed]. rewrite Hf.
  cbn [committed]. rewrite Hi. reflexivity.
Qed.

Lemma describe_table_raises (t : string) (w : world) :
  ~ describable (committed w) t ->
  exists e, fst (describe_table t w) = Raise e.
Proof.
  intros H. unfold describe_table, bind, inspector, log.
  cbn [committed txn begun conn_open calls fst snd].
  destruct (get_columns (committed w) t) as [cols|e] eqn:Hc; [|now eexists].
  cbn [committed].
  destruct (get_pk_constraint (committed w) t) as [pk|e] eqn:Hp; [|now eexists].
  cbn [committed].
  destruct (get_foreign_keys (committed w) t) as [fks|e] eqn:Hf; [|now eexists].
  cbn [committed].
  destruct (get_indexes (committed w) t) as [idxs|e] eqn:Hi; [|now eexists].
  exfalso. apply H. unfold describable. eauto 10.
Qed.

Lemma schema_loop_cons (t : string) (rest : list string)
  (tables : list (string * table_desc)) (w : world) :
  schema_loop (t :: rest) tables w =
  match describe_table t w with
  | (Ok d, w') => schema_loop rest (dict_set t d tables) w'
  | (Raise e, w') => (Raise e, w')
  end.
Proof. reflexivity. Qed.

Lemma schema_loop_keeps (names : list string) :
  forall (tables : list (string * table_desc)) (w : world),
    committed (snd (schema_loop names tables w)) = committed w.
Proof.
  induction names as [|t names IH]; intros tables w; [reflexivity|].
  rewrite schema_loop_cons. pose proof (describe_table_keeps t w) as K.
  destruct (describe_table t w) as [[d|e] w']; cbn [snd] in K |- *;
    [|exact K].
  now rewrite IH.
Qed.

Lemma schema_loop_run (db : DB) (names : list string) :
  (forall t, In t names -> describable db t) ->
  forall (tables : list (string * table_desc)) (w : world),
    committed w = db ->
    fst (schema_loop names tables w)
    = Ok (fold_left (fun d t => dict_set t (table_in db t) d) names tables).
Proof.
  induction names as [|t names IH]; intros Hd tables w Hw; [reflexivity|].
  rewrite schema_loop_cons.
  assert (Ht : describable (committed w) t)
    by (rewrite Hw; apply Hd; now left).
  pose proof (describe_table_run w Ht) as R.
  pose proof (describe_table_keeps t w) as K.
  destruct (describe_table t w) as [[d|e] w']; cbn [fst snd] in R, K;
    [|discriminate].
  injection R as ->. rewrite Hw. cbn [fold_left].
  apply IH; [|congruence]. intros t' Hin. apply Hd. now right.
Qed.

Lemma schema_loop_raises (db : DB) (names : list string) :
  (exists t, In t names /\ ~ describable db t) ->
  forall (tables : list (string * table_desc)) (w : world),
    committed w = db ->
    exists e, fst (schema_loop names tables w) = Raise e.
Proof.
  induction names as [|t names IH]; intros (bad & Hin & Hbad) tables w Hw;
    [destruct Hin|].
  rewrite schema_loop_cons.
  pose proof (describe_table_keeps t w) as K.
  destruct (describe_table t w) as [[d|e] w'] eqn:D; cbn [snd] in K;
    [|now eexists].
  destruct Hin as [->|Hin].
  - exfalso. rewrite <- Hw in Hbad.
    destruct (describe_table_raises w Hbad) as [e He].
    rewrite D in He. discriminate.
  - apply IH; [now exists bad | congruence].
Qed.

Lemma schema_unfold (w : world) :
  answer schema w =
  match get_table_names (committed w) with
  | Raise e => (Response 500 Page [], log Inspect w)
  | Ok names =>
      match schema_loop (sorted names) [] (log Inspect w) with
      | (Ok tables, v) => (jsonify 200 (JSchema tables), v)
      | (Raise e, v) => (Response 500 Page [], v)
      end
  end.
Proof.
  unfold answer, schema, bind, inspector.
  destruct (get_table_names (committed w)) as [names|e]; [|reflexivity].
  now destruct (schema_loop _ _ _) as [[tables|e] v].
Qed.

Lemma schema_keeps (w : world) :
  committed (snd (answer schema w)) = committed w.
Proof.
  rewrite schema_unfold.
  destruct (get_table_names (committed w)) as [names|e]; [|reflexivity].
  pose proof (schema_loop_keeps (sorted names) [] (log Inspect w)) as K.
  now destruct (schema_loop _ _ _) as [[tables|e] v].
Qed.

Lemma in_sorted (names : list string) (t : string) :
  In t (sorted names) <-> In t names.
Proof.
  split; intros H.
  - eapply Permutation_in; [symmetry; apply SortFacts.sorted_perm | exact H].
  - eapply Permutation_in; [apply SortFacts.sorted_perm | exact H].
Qed.

(** [schema] when the inspector answers every question: the object it
    returns is filled table after table in sorted order. *)
Lemma schema_answer (w : world) (names : list string) :
  get_table_names (committed w) = Ok names ->
  (forall t, In t names -> describable (committed w) t) ->
  fst (answer schema w)
  = jsonify 200
      (JSchema (fold_left (fun d t => dict_set t (table_in (committed w) t) d)
                          (sorted names) [])).
Proof.
  intros Hn Hd. rewrite schema_unfold, Hn.
  assert (R : fst (schema_loop (sorted names) [] (log Inspect w))
              = Ok (fold_left (fun d t => dict_set t (table_in (committed w) t) d)
                              (sorted names) [])).
  { apply schema_loop_run; [|reflexivity].
    intros t Ht. apply Hd. now apply in_sorted. }
  destruct (schema_loop _ _ _) as [[tables|e] v]; cbn [fst] in R |- *;
    [|discriminate].
  now injection R as ->.
Qed.

(** ** C8 *)

(** C8: the tables are enumerated in code-point order of their names by
    both views.  When the inspector lists the names [names] and the
    counting statements succeed and write nothing, [GET /fenrir/] answers
    200 with one entry for each table, in the order of the sorted names,
    and the same answer again when it is called a second time; a list
    returned by the view is in that order whatever the statements do.
    When the inspector answers for every table, [GET /fenrir/schema]
    answers 200 with an object whose keys are the names, sorted and
    distinct, and the same answer again when it is called a second time,
    columns, keys and indexes included. *)
Theorem introspection_deterministic :
  forall (env : app_env) (w : world) (names : list string),
    get_table_names (committed w) = Ok names ->
    (StronglySorted str_le (sorted names) /\ Permutation names (sorted names))
    /\ (forall tables,
           counting_reads_only (committed w) ->
           counts_of (committed w) (sorted names) = Some tables ->
           counts_serialisable tables = true ->
           let first := answer (index env) w in
           fst first
           = jsonify 200 (JIndex (_extract_app_name (_read_fenrir_md env)
                                                    (app_name env))
                                 (_read_fenrir_md env) tables)
           /\ map fst tables = sorted names
           /\ fst (answer (index env) (snd first)) = fst first)
    /\ (forall name md tables,
           fst (answer (index env) w) = jsonify 200 (JIndex name md tables) ->
           map fst tables = sorted names)
    /\ ((forall t, In t names -> describable (committed w) t) ->
        let first := answer schema w in
        exists tables,
          fst first = jsonify 200 (JSchema tables)
          /\ StronglySorted str_le (map fst tables)
          /\ NoDup (map fst tables)
          /\ (forall n, In n (map fst tables) <-> In n names)
          /\ fst (answer schema (snd first)) = fst first).
Proof.
  intros env w names Hn. split; [|split; [|split]].
  - split; [apply SortFacts.sorted_sorted | apply SortFacts.sorted_perm].
  - intros tables Hro Hc Hs first. subst first.
    destruct (index_answer env w Hro) as [E K].
    assert (R : index_outcome env (committed w)
                = jsonify 200 (JIndex (_extract_app_name (_read_fenrir_md env)
                                                         (app_name env))
                                      (_read_fenrir_md env) tables)).
    { unfold index_outcome. now rewrite Hn, Hc, Hs. }
    split; [now rewrite E|]. split.
    + eapply index_names; [exact Hn | rewrite E; exact R].
    + assert (Hro' : counting_reads_only
                       (committed (snd (answer (index env) w))))
        by now rewrite K.
      destruct (index_answer env _ Hro') as [E' _].
      now rewrite E', K, E.
  - intros name md tables. now apply index_names.
  - intros Hd first. subst first.
    pose proof (schema_answer w Hn Hd) as E.
    pose proof (schema_keeps w) as K.
    eexists. split; [exact E|].
    assert (F : let r := fold_left
                         (fun d t => dict_set t (table_in (committed w) t) d)
                         (sorted names) [] in
                StronglySorted str_le (map fst r) /\ NoDup (map fst r)
                /\ forall n, In n (map fst r) <-> In n [] \/ In n (sorted names)).
    { apply (@SortFacts.fill_keys _ (table_in (committed w))
                                  (sorted names) []).
      - apply SortFacts.sorted_sorted.
      - constructor.
      - constructor.
      - constructor. }
    destruct F as (S1 & N1 & M1).
    split; [exact S1 | split; [exact N1 | split]].
    + intros n. rewrite M1, in_sorted. simpl. tauto.
    + rewrite E, <- K. apply schema_answer; rewrite K; assumption.
Qed.

End Introspection.

(* ================================================================== *)
(** * The endpoint that is not there *)
(* ================================================================== *)

Section Writes.

Context {B : Backend}.

(** ** C1 *)

(** C1: the URL map built by [create_fenrir_bp] has no rule for
    [/fenrir/execute].  A statement posted there is answered 404,
    whatever the credentials, and the world is left as it was: nothing is
    executed and nothing is committed. *)
Theorem execute_not_routed :
  (forall N : Z, find_rule "/fenrir/execute" (create_fenrir_bp N) = None)
  /\ (forall (secure : option secure_cfg) (N : Z) (env : app_env)
             (h : string -> option string) (sql : ustr) (w : world),
         handle secure N env
                (Request POST "/fenrir/execute" None h None
                         (PDict [("sql", PStr sql)])) w
         = (Response 404 Page [], w)).
Proof.
  split; [reflexivity|]. intros. apply handle_execute.
Qed.

End Writes.

(* ================================================================== *)
(** * The theorems at work on the small engine *)
(* ================================================================== *)

Import Bookstore.

Lemma count_sql_not_add_author (t : string) :
  UStr.eqb (count_sql t) (U "SELECT add_author()") = false.
Proof. now vm_compute. Qed.

Lemma count_sql_not_insert (t : string) :
  UStr.eqb (count_sql t) insert_with_cte = false.
Proof. now vm_compute. Qed.

Lemma count_sql_not_select_all (t : string) :
  UStr.eqb (count_sql t) (U "SELECT * FROM author") = false.
Proof. now vm_compute. Qed.

Lemma count_sql_not_blob (t : string) :
  UStr.eqb (count_sql t) (U "SELECT x'00'") = false.
Proof. now vm_compute. Qed.

(** The counting statements of the small engine write nothing. *)
Lemma bookstore_counts_read_only (db : list (list cell)) :
  @counting_reads_only engine db.
Proof.
  intros t cur db'. cbn [run_sql engine]. unfold run.
  rewrite count_sql_not_select_all, count_sql_not_add_author,
    count_sql_not_insert, count_sql_not_blob.
  destruct (UStr.eqb (count_sql t) (count_sql "author"));
    [intros E; now inversion E|].
  destruct (UStr.eqb (count_sql t) (count_sql "book"));
    [intros E; now inversion E | discriminate].
Qed.

Lemma bookstore_describable (db : list (list cell)) (t : string) :
  @describable engine db t.
Proof. unfold describable. cbn. eauto 10. Qed.

Lemma classify_prefix_rule_witness :
  classify (U "select 1" ++ U " -- trailing text")%list = READ_ONLY.
Proof.
  apply (proj2 (proj2 (proj2 (classify_prefix_rule (U "select 1"))))).
  apply (proj1 (proj2 (classify_prefix_rule (U "select 1")))).
  reflexivity.
Defined.



Lemma blank_sql_rejected_witness :
  handle None 3 production
         (post "/fenrir/query" (bearer "test-secret-key") (sql_body "   "))
         (fresh (authors 1))
  = (jsonify 400 (JError "missing 'sql' field"), fresh (authors 1)).
Proof.
  apply (proj1 (@blank_sql_rejected engine)); try reflexivity.
  right. exists [("sql", PStr (U "   "))]. split; [reflexivity|].
  right. exists (U "   "). split; reflexivity.
Defined.

Lemma cross_classification_witness :
  exists msg,
    handle None 3 production
           (post "/fenrir/query" (bearer "test-secret-key")
                 (sql_body "INSERT INTO author (name) VALUES ('nope')"))
           (fresh (authors 1))
    = (jsonify 400 (JError msg), fresh (authors 1)).
Proof.
  apply (proj1 (@cross_classification engine))
    with (raw := U "INSERT INTO author (name) VALUES ('nope')");
    try reflexivity.
  exists [("sql", PStr (U "INSERT INTO author (name) VALUES ('nope')"))].
  split; reflexivity.
Defined.

Lemma debug_bypasses_auth_witness :
  handle (Some (SecureCfg None None)) 3 debugging
         (post "/fenrir/query" no_headers (sql_body "SELECT * FROM author"))
         (fresh (authors 1))
  = handle (Some (SecureCfg None None)) 3
           (AppEnv true (Some "test-secret-key") "bookstore" None)
           (post "/fenrir/query" (bearer "wrong")
                 (sql_body "SELECT * FROM author"))
           (fresh (authors 1)).
Proof.
  apply (@debug_bypasses_auth engine); [reflexivity | |]; repeat split.
Defined.

Lemma introspection_deterministic_witness :
  fst (answer (index production) (fresh (authors 2)))
  = jsonify 200 (JIndex "Bookstore" (Some "# Bookstore")
                        [("author", Some (CInt 2)); ("book", Some (CInt 0))]).
Proof.
  refine (proj1 (proj1 (proj2 (@introspection_deterministic
                                 engine production (fresh (authors 2))
                                 ["book"; "author"] eq_refl))
                       [("author", Some (CInt 2)); ("book", Some (CInt 0))]
                       _ _ _)).
  - apply bookstore_counts_read_only.
  - reflexivity.
  - reflexivity.
Defined.

(** ** C4 *)

(** C4: on the engine of the test suite, a statement that starts with
    [WITH] and inserts a row is classified READ_ONLY and run by
    [POST /fenrir/query].  The view makes its calls, the rollback
    included, and answers 422 because the result has no rows; the row
    is committed all the same, for the driver had opened no transaction
    before the statement, and the next read returns it. *)
Theorem query_write_survives_rollback :
  let write := post "/fenrir/query" (bearer "test-secret-key")
                    (PDict [("sql", PStr insert_with_cte)]) in
  let read := post "/fenrir/query" (bearer "test-secret-key")
                   (sql_body "SELECT * FROM author") in
  let before := fresh (authors 1) in
  let after := snd (handle None DEFAULT_ROW_LIMIT production write before) in
  classify insert_with_cte = READ_ONLY
  /\ fst (handle None DEFAULT_ROW_LIMIT production read before)
     = jsonify 200 (JQuery ["id"; "name"] (authors 1) 1 false 1000)
  /\ fst (handle None DEFAULT_ROW_LIMIT production write before)
     = jsonify 422 (JError (exn_str no_rows))
  /\ after = World (authors 1 ++ [pratchett])%list None false false
                   (read_calls insert_with_cte)
  /\ fst (handle None DEFAULT_ROW_LIMIT production read after)
     = jsonify 200 (JQuery ["id"; "name"] (authors 1 ++ [pratchett])%list
                           2 false 1000).
Proof. repeat split; now vm_compute. Qed.

(** The requests of the test suite, on the small engine. *)

(** [test_row_limit]: ten authors under a limit of three. *)
Example row_limit_of_three :
  fst (handle None 3 production
              (post "/fenrir/query" (bearer "test-secret-key")
                    (sql_body "SELECT * FROM author"))
              (fresh (authors 10)))
  = jsonify 200 (JQuery ["id"; "name"] (firstn 3 (authors 10)) 3 true 3).
Proof. now vm_compute. Qed.

(** A limit of zero: the rows are not capped. *)
Example row_limit_of_zero :
  fst (handle None 0 production
              (post "/fenrir/query" (bearer "test-secret-key")
                    (sql_body "SELECT * FROM author"))
              (fresh (authors 2)))
  = jsonify 200 (JQuery ["id"; "name"] (authors 2) 2 false 0).
Proof. now vm_compute. Qed.

(** A read that writes: behind a driver that opens a transaction before
    every statement the row is gone once [query] returns; behind the
    SQLite driver it stays. *)
Example writing_read :
  handle (B := transactional) None DEFAULT_ROW_LIMIT production
         (post "/fenrir/query" (bearer "test-secret-key")
               (sql_body "SELECT add_author()"))
         (@World transactional (authors 1) None false false [])
  = (jsonify 200 (JQuery ["add_author"] [[CInt 2]] 1 false 1000),
     @World transactional (authors 1) None false false
            (read_calls (U "SELECT add_author()")))
  /\ handle None DEFAULT_ROW_LIMIT production
            (post "/fenrir/query" (bearer "test-secret-key")
                  (sql_body "SELECT add_author()"))
            (fresh (authors 1))
     = (jsonify 200 (JQuery ["add_author"] [[CInt 2]] 1 false 1000),
        World (authors 1 ++ [pratchett])%list None false false
              (read_calls (U "SELECT add_author()"))).
Proof. split; now vm_compute. Qed.

(** A statement that fails leaves through the [with] block, which rolls
    back as well. *)
Example failing_read_is_rolled_back :
  handle None DEFAULT_ROW_LIMIT production
         (post "/fenrir/query" (bearer "test-secret-key")
               (sql_body "SELECT * FROM nonexistent"))
         (fresh (authors 1))
  = (jsonify 422 (JError "syntax error"),
     World (authors 1) None false false
           (read_calls (U "SELECT * FROM nonexistent"))).
Proof. now vm_compute. Qed.

(** A row with a BLOB: the statement runs, and the [jsonify] that
    follows the [try] statement raises. *)
Example blob_is_server_error :
  handle None DEFAULT_ROW_LIMIT production
         (post "/fenrir/query" (bearer "test-secret-key")
               (sql_body "SELECT x'00'"))
         (fresh (authors 1))
  = (Response 500 Page [],
     World (authors 1) None false false (read_calls (U "SELECT x'00'"))).
Proof. now vm_compute. Qed.

(** [TestExecute.test_insert] expects 200 and [affected_rows == 1]. *)
Example execute_insert_not_found :
  handle None DEFAULT_ROW_LIMIT production
         (post "/fenrir/execute" (bearer "test-secret-key")
               (sql_body "INSERT INTO author (name) VALUES ('Pratchett')"))
         (fresh (authors 1))
  = (Response 404 Page [], fresh (authors 1)).
Proof. now vm_compute. Qed.

(** The view strips the statement on both sides before it tests it, so
    [WITH] followed by nothing but white space is rejected by [query]
    although the pattern accepts the text as posted. *)
Example with_alone :
  classify (U "WITH ") = READ_ONLY
  /\ classify (UStr.strip (U "WITH ")) = MUTATING
  /\ fst (handle None DEFAULT_ROW_LIMIT production
                 (post "/fenrir/query" (bearer "test-secret-key")
                       (sql_body "WITH "))
                 (fresh (authors 1)))
     = jsonify 400 (JError "only SELECT (or WITH ... SELECT) allowed").
Proof. repeat split; now vm_compute. Qed.

(** Letters that are not those of the keyword and match under
    [re.IGNORECASE]: a long s (U+017F) for the S of SELECT, a dotless i
    (U+0131) for the I of WITH. *)
Example letters_of_other_alphabets :
  classify ([383] ++ U "elect 1")%list%N = READ_ONLY
  /\ spec_read_only ([383] ++ U "elect 1")%list%N = false
  /\ classify (U "w" ++ [305] ++ U "th x")%list%N = READ_ONLY
  /\ spec_read_only (U "w" ++ [305] ++ U "th x")%list%N = false.
Proof. repeat split; now vm_compute. Qed.

(** [TestAuth]: a missing secret and a wrong key both give 401. *)
Example bearer_statuses :
  status (fst (handle None 3 (AppEnv false None "bookstore" None)
                      (Request GET "/fenrir/" None (bearer "anything") None PNone)
                      (fresh (authors 1)))) = 401
  /\ status (fst (handle None 3 production
                         (Request GET "/fenrir/" None (bearer "wrong") None PNone)
                         (fresh (authors 1)))) = 401
  /\ status (fst (handle None 3 production
                         (Request GET "/fenrir/" None (bearer "test-secret-key")
                                  None PNone)
                         (fresh (authors 1)))) = 200.
Proof. repeat split; now vm_compute. Qed.

(** A body whose [sql] is not a string has a [sql] field, and the view
    does not answer it 400: [.strip()] raises and the request ends in a
    server error, before any call to the engine. *)
Example sql_not_a_string :
  handle None DEFAULT_ROW_LIMIT production
         (post "/fenrir/query" (bearer "test-secret-key")
               (PDict [("sql", PNone)]))
         (fresh (authors 1))
  = (Response 500 Page [], fresh (authors 1)).
Proof. now vm_compute. Qed.

(** Doubled slashes in the path are merged and the client is sent to
    the merged path. *)
Example doubled_slashes_redirect :
  handle None DEFAULT_ROW_LIMIT production
         (post "/fenrir//query" (bearer "test-secret-key")
               (sql_body "SELECT * FROM author"))
         (fresh (authors 1))
  = (Response 308 Page [], fresh (authors 1)).
Proof. now vm_compute. Qed.

(* ================================================================== *)
(** * Further properties: who is let through *)
(* ================================================================== *)

Module GateFacts.

Lemma bearer_header (auth key : string) :
  PyStr.startswith auth "Bearer " = true /\ drop 7 auth = key
  <-> auth = "Bearer " ++ key.
Proof.
  unfold PyStr.startswith. rewrite PyStrFacts.prefix_append. split.
  - intros [[q ->] H]. simpl in H. now subst.
  - intros ->. split; [now exists key | reflexivity].
Qed.

Lemma is_empty_false_iff (s : string) : PyStr.is_empty s = false <-> s <> "".
Proof. destruct s; simpl; split; congruence. Qed.

Lemma opt_eqb_eq (o : option string) (s : string) :
  opt_eqb o s = true <-> o = Some s.
Proof.
  destruct o as [x|]; simpl; [|split; discriminate].
  rewrite String.eqb_eq. split; congruence.
Qed.

End GateFacts.

(** [_require_auth], outside debug mode, calls the view exactly when the
    secret is configured and not empty and the [Authorization] header is
    the word [Bearer], one space and the secret, to the character. *)
Theorem require_auth_accepts :
  forall (env : app_env) (req : request),
    debug env = false ->
    (bearer_check env req = None <->
     exists key,
       FENRIR_API_KEY env = Some key /\ key <> ""
       /\ req_headers req "Authorization" = Some ("Bearer " ++ key)).
Proof.
  intros env req Hd. unfold bearer_check, _require_auth. rewrite Hd.
  destruct (FENRIR_API_KEY env) as [k|].
  - destruct (PyStr.is_empty k) eqn:Hk.
    + split; [discriminate|]. intros (key & E & Hne & _).
      injection E as <-. apply GateFacts.is_empty_false_iff in Hne. congruence.
    + apply GateFacts.is_empty_false_iff in Hk.
      destruct (req_headers req "Authorization") as [auth|]; cbn [or_default].
      * destruct (PyStr.startswith auth "Bearer ") eqn:Hs;
          destruct (String.eqb (drop 7 auth) k) eqn:He; cbn [negb orb].
        -- apply String.eqb_eq in He. split; [intros _|reflexivity].
           exists k. repeat split; trivial. f_equal.
           now apply GateFacts.bearer_header.
        -- split; [discriminate|]. intros (key & E & _ & Ha).
           injection E as <-. injection Ha as Ha.
           apply GateFacts.bearer_header in Ha as [_ Ha].
           apply String.eqb_neq in He. contradiction.
        -- split; [discriminate|]. intros (key & E & _ & Ha).
           injection Ha as Ha.
           apply GateFacts.bearer_header in Ha as [Ha _]. congruence.
        -- split; [discriminate|]. intros (key & E & _ & Ha).
           injection Ha as Ha.
           apply GateFacts.bearer_header in Ha as [Ha _]. congruence.
      * split; [discriminate|]. intros (key & _ & _ & Ha). discriminate.
  - split; [discriminate|]. intros (key & E & _). discriminate.
Qed.

Lemma require_auth_accepts_witness :
  bearer_check Bookstore.production
    (Request GET "/fenrir/" None (Bookstore.bearer "test-secret-key") None PNone)
  = None.
Proof.
  apply require_auth_accepts; [reflexivity|].
  exists "test-secret-key". repeat split. discriminate.
Defined.

(** On a path that is not exempt and outside debug mode, the hook of
    [secure_app] lets a request through exactly when the secret is
    configured and not empty and the request presents it, either in the
    configured API-key header or as the password of its basic
    credentials.  A bearer token is no credential for that check. *)
Theorem basic_auth_check_accepts :
  forall (cfg : secure_cfg) (env : app_env) (req : request),
    debug env = false -> exempt cfg req = false ->
    (_basic_auth_check cfg env req = None <->
     exists key,
       FENRIR_API_KEY env = Some key /\ key <> ""
       /\ ((exists h, api_key_header cfg = Some h /\ h <> ""
                      /\ req_headers req h = Some key)
           \/ req_authorization req = Some (Some key))).
Proof.
  intros cfg env req Hd Hx. unfold exempt in Hx.
  apply orb_false_iff in Hx as [Hx He]. unfold _basic_auth_check.
  rewrite Hd, Hx, He.
  destruct (FENRIR_API_KEY env) as [k|];
    [|split; [discriminate | intros (key & E & _); discriminate]].
  destruct (PyStr.is_empty k) eqn:Hk.
  { split; [discriminate|]. intros (key & E & Hne & _). injection E as <-.
    apply GateFacts.is_empty_false_iff in Hne. congruence. }
  apply GateFacts.is_empty_false_iff in Hk.
  assert (Basic : (match req_authorization req with
                   | Some (Some password) =>
                       if String.eqb password k then None
                       else Some (Response 401 (Text "Authentication required")
                                    www_authenticate)
                   | _ => Some (Response 401 (Text "Authentication required")
                                  www_authenticate)
                   end = None) <-> req_authorization req = Some (Some k)).
  { destruct (req_authorization req) as [[pw|]|];
      [|split; discriminate|split; discriminate].
    destruct (String.eqb pw k) eqn:E.
    - apply String.eqb_eq in E. subst. tauto.
    - apply String.eqb_neq in E. split; [discriminate | congruence]. }
  destruct (api_key_header cfg) as [h|].
  - destruct (PyStr.is_empty h) eqn:Hh; simpl.
    + rewrite Basic. split.
      * intros H. exists k. repeat split; trivial. now right.
      * intros (key & E & _ & [(h' & E' & Hne & _)|H]).
        -- injection E' as <-. apply GateFacts.is_empty_false_iff in Hne.
           congruence.
        -- congruence.
    + apply GateFacts.is_empty_false_iff in Hh.
      destruct (req_headers req h) as [v|] eqn:Hv.
      * destruct (PyStr.is_empty v) eqn:Hve; simpl.
        -- rewrite Basic. split.
           ++ intros H. exists k. repeat split; trivial. now right.
           ++ intros (key & E & Hne & [(h' & E' & _ & Hv')|H]).
              ** injection E as <-. injection E' as <-. rewrite Hv in Hv'.
                 injection Hv' as ->.
                 apply GateFacts.is_empty_false_iff in Hne. congruence.
              ** congruence.
        -- destruct (String.eqb v k) eqn:Evk.
           ++ apply String.eqb_eq in Evk. subst v. split; [intros _|reflexivity].
              exists k. repeat split; trivial. left. now exists h.
           ++ apply String.eqb_neq in Evk. rewrite Basic. split.
              ** intros H. exists k. repeat split; trivial. now right.
              ** intros (key & E & _ & [(h' & E' & _ & Hv')|H]).
                 --- injection E as <-. injection E' as <-. congruence.
                 --- congruence.
      * rewrite Basic. split.
        -- intros H. exists k. repeat split; trivial. now right.
        -- intros (key & E & _ & [(h' & E' & _ & Hv')|H]).
           ++ injection E' as <-. congruence.
           ++ congruence.
  - rewrite Basic. split.
    + intros H. exists k. repeat split; trivial. now right.
    + intros (key & E & _ & [(h' & E' & _)|H]); [discriminate | congruence].
Qed.

Lemma basic_auth_check_accepts_witness :
  _basic_auth_check (SecureCfg None (Some "X-API-Key")) Bookstore.production
    (Request GET "/admin" None
             (fun h => if String.eqb h "X-API-Key"
                       then Some "test-secret-key" else None)
             None PNone)
  = None.
Proof.
  apply basic_auth_check_accepts; [reflexivity | reflexivity |].
  exists "test-secret-key". repeat split; [discriminate|].
  left. exists "X-API-Key". repeat split. discriminate.
Defined.

(** On a path that is not exempt and outside debug mode, a secret that is
    absent or empty is reported with 503 before any credential is looked
    at; with a secret in place the hook either lets the request through or
    answers 401 with the [WWW-Authenticate] challenge. *)
Theorem basic_auth_check_outcomes :
  forall (cfg : secure_cfg) (env : app_env) (req : request),
    debug env = false -> exempt cfg req = false ->
    match FENRIR_API_KEY env with
    | None | Some EmptyString =>
        _basic_auth_check cfg env req
        = Some (Response 503 (Text "Not configured") [])
    | Some _ =>
        _basic_auth_check cfg env req = None
        \/ _basic_auth_check cfg env req
           = Some (Response 401 (Text "Authentication required")
                            www_authenticate)
    end.
Proof.
  intros cfg env req Hd Hx. unfold exempt in Hx.
  apply orb_false_iff in Hx as [Hx He]. unfold _basic_auth_check.
  rewrite Hd, Hx, He.
  destruct (FENRIR_API_KEY env) as [[|c k]|]; try reflexivity.
  cbn [PyStr.is_empty].
  match goal with
  | |- context [if ?b then None else _] => destruct b; [now left|]
  end.
  destruct (req_authorization req) as [[pw|]|]; try (now right).
  destruct (String.eqb pw (String c k)); [now left | now right].
Qed.

Lemma basic_auth_check_outcomes_witness :
  _basic_auth_check (SecureCfg None None)
    (AppEnv false (Some "") "bookstore" None)
    (Request GET "/admin" None Bookstore.no_headers (Some (Some "")) PNone)
  = Some (Response 503 (Text "Not configured") []).
Proof.
  apply (basic_auth_check_outcomes (SecureCfg None None)
           (AppEnv false (Some "") "bookstore" None)
           (Request GET "/admin" None Bookstore.no_headers (Some (Some "")) PNone));
    reflexivity.
Defined.

Section GuardedViews.

Context {B : Backend}.

Lemma require_auth_refuses (env : app_env) (req : request) (r : response) :
  bearer_check env req = Some r ->
  status r = 401
  /\ forall (R : Type) (lift : response -> R) (f : R),
      _require_auth lift env req f = lift r.
Proof.
  unfold bearer_check, _require_auth. intros H.
  destruct (debug env); [discriminate|].
  destruct (FENRIR_API_KEY env) as [k|];
    [|injection H as <-; now split].
  destruct (PyStr.is_empty k); [injection H as <-; now split|].
  destruct (_ || _); [|discriminate]. injection H as <-. now split.
Qed.

(** The rules of the blueprint, read back from a successful lookup. *)
Lemma rule_found (N : Z) (path : string) (ms : list http_method) (v : view) :
  find_rule path (create_fenrir_bp N) = Some (ms, v) ->
  PyStr.startswith path "/fenrir/" = true
  /\ exists f : app_env -> request -> M response,
      v = (fun env req => _require_auth ret env req (f env req)).
Proof.
  unfold create_fenrir_bp, find_rule.
  destruct (String.eqb path "/fenrir/") eqn:E1;
    [|destruct (String.eqb path "/fenrir/schema") eqn:E2;
      [|destruct (String.eqb path "/fenrir/query") eqn:E3; [|discriminate]]];
    intros E; injection E as _ <-;
    match goal with
    | H : String.eqb path _ = true |- _ => apply String.eqb_eq in H; subst path
    end; (split; [reflexivity|]).
  - now exists (fun env _ => index env).
  - now exists (fun _ _ => schema).
  - now exists (fun _ req => query N req).
Qed.

(** A request that [_require_auth] refuses is answered 401 by every view
    of the blueprint, with or without [secure_app], and the world is left
    as it was: the view is not entered and the engine is not used. *)
Theorem refused_request_never_reaches_view :
  forall (secure : option secure_cfg) (N : Z) (env : app_env)
         (req : request) (w : world) (ms : list http_method) (v : view)
         (r : response),
    find_rule (req_path req) (create_fenrir_bp N) = Some (ms, v) ->
    allows ms (req_method req) = true ->
    bearer_check env req = Some r ->
    handle secure N env req w = (r, w) /\ status r = 401.
Proof.
  intros secure N env req w ms v r Hr Hm Ha.
  destruct (rule_found _ _ Hr) as (Hp & f & ->).
  destruct (require_auth_refuses _ _ Ha) as [Hs Hw].
  split; [|exact Hs].
  rewrite handle_dispatch by exact Hp.
  unfold dispatch. cbv zeta. rewrite Hr, Hm, Hw. reflexivity.
Qed.

(** A request whose method the matching rule does not list never reaches
    the view: [query] runs for POST only, and [index] and [schema] for GET
    and HEAD only.  Any other method gets the automatic answer to OPTIONS
    or 405, whatever its credentials, and the world is left as it was. *)
Theorem method_not_allowed :
  forall (secure : option secure_cfg) (N : Z) (env : app_env)
         (req : request) (w : world) (ms : list http_method) (v : view),
    find_rule (req_path req) (create_fenrir_bp N) = Some (ms, v) ->
    (req_path req = "/fenrir/query" /\ req_method req <> POST
     \/ req_path req <> "/fenrir/query"
        /\ req_method req <> GET /\ req_method req <> HEAD) ->
    handle secure N env req w
    = (Response (if method_eqb (req_method req) OPTIONS then 200 else 405)
                Page [], w).
Proof.
  intros secure N env req w ms v Hr Hm.
  destruct (rule_found _ _ Hr) as (Hp & _).
  assert (Ha : allows ms (req_method req) = false).
  { revert Hr. unfold create_fenrir_bp, find_rule.
    destruct (String.eqb (req_path req) "/fenrir/") eqn:E1;
      [|destruct (String.eqb (req_path req) "/fenrir/schema") eqn:E2;
        [|destruct (String.eqb (req_path req) "/fenrir/query") eqn:E3;
          [|discriminate]]];
      intros Hr; injection Hr as <- _;
      match goal with
      | H : String.eqb (req_path req) _ = true |- _ => apply String.eqb_eq in H
      end;
      destruct Hm as [[Hq Hm]|(Hq & Hg & Hh)]; try congruence;
      destruct (req_method req); try reflexivity; congruence. }
  rewrite handle_dispatch by exact Hp.
  unfold dispatch. cbv zeta. rewrite Hr, Ha.
  now destruct (method_eqb (req_method req) OPTIONS).
Qed.

End GuardedViews.

Lemma refused_request_never_reaches_view_witness :
  handle (Some (SecureCfg None None)) 3 Bookstore.production
         (Bookstore.post "/fenrir/query" (Bookstore.bearer "wrong")
                         (Bookstore.sql_body "SELECT * FROM author"))
         (Bookstore.fresh (Bookstore.authors 1))
  = (jsonify 401 (JError "unauthorized"), Bookstore.fresh (Bookstore.authors 1)).
Proof.
  refine (proj1 (@refused_request_never_reaches_view Bookstore.engine
                   (Some (SecureCfg None None)) 3 Bookstore.production
                   (Bookstore.post "/fenrir/query" (Bookstore.bearer "wrong")
                                   (Bookstore.sql_body "SELECT * FROM author"))
                   (Bookstore.fresh (Bookstore.authors 1))
                   [POST] _ (jsonify 401 (JError "unauthorized")) _ _ _));
    reflexivity.
Defined.

Lemma method_not_allowed_witness :
  handle None 3 Bookstore.production
         (Request GET "/fenrir/query" None
                  (Bookstore.bearer "test-secret-key") None
                  (Bookstore.sql_body "SELECT * FROM author"))
         (Bookstore.fresh (Bookstore.authors 1))
  = (Response 405 Page [], Bookstore.fresh (Bookstore.authors 1)).
Proof.
  refine (@method_not_allowed Bookstore.engine None 3
            Bookstore.production
            (Request GET "/fenrir/query" None
                     (Bookstore.bearer "test-secret-key") None
                     (Bookstore.sql_body "SELECT * FROM author"))
            (Bookstore.fresh (Bookstore.authors 1)) [POST] _ _ _);
    [reflexivity|].
  left. split; [reflexivity | discriminate].
Defined.

(* ================================================================== *)
(** * Further properties: the name taken from FENRIR.md *)
(* ================================================================== *)

Module HeadingFacts.
Import PyStr PyStrFacts.

Lemma lstrip_with_lstripped (p : ascii -> bool) (s : string) :
  lstripped p (lstrip_with p s).
Proof.
  induction s as [|c s IH]; simpl; [exact I|].
  destruct (p c) eqn:E; [exact IH | exact E].
Qed.

Lemma lstrip_with_id (p : ascii -> bool) (s : string) :
  lstripped p s -> lstrip_with p s = s.
Proof. destruct s as [|c s]; simpl; [reflexivity | now intros ->]. Qed.

Lemma rstrip_with_lstripped (p : ascii -> bool) (s : string) :
  lstripped p s -> lstripped p (rstrip_with p s).
Proof.
  destruct s as [|c s]; simpl; [trivial|]. intros H. now rewrite H.
Qed.

Lemma rstrip_with_idem (p : ascii -> bool) (s : string) :
  rstrip_with p (rstrip_with p s) = rstrip_with p s.
Proof.
  induction s as [|c s IH]; simpl; [reflexivity|].
  destruct (p c && is_empty (rstrip_with p s)) eqn:E; [reflexivity|].
  simpl. now rewrite IH, E.
Qed.

(** Stripping twice is stripping once. *)
Lemma strip_idem (s : string) : strip (strip s) = strip s.
Proof.
  unfold strip, rstrip, lstrip.
  rewrite (lstrip_with_id isspace (rstrip_with isspace (lstrip_with isspace s))).
  - apply rstrip_with_idem.
  - apply rstrip_with_lstripped, lstrip_with_lstripped.
Qed.

Lemma is_empty_append (a b : string) :
  is_empty b = false -> is_empty (a ++ b) = false.
Proof. destruct a; simpl; trivial. Qed.

Lemma rstrip_with_append_keep (p : ascii -> bool) (a b : string) :
  is_empty (rstrip_with p b) = false ->
  rstrip_with p (a ++ b) = a ++ rstrip_with p b.
Proof.
  intros H. induction a as [|c a IH]; simpl; [reflexivity|].
  rewrite IH, (is_empty_append a _ H), andb_false_r. reflexivity.
Qed.

Lemma rstrip_with_append_drop (p : ascii -> bool) (a b : string) :
  forallb p b = true -> rstrip_with p (a ++ b) = rstrip_with p a.
Proof.
  intros H. induction a as [|c a IH]; simpl.
  - now apply rstrip_with_empty.
  - now rewrite IH.
Qed.

Lemma rstrip_with_none (p : ascii -> bool) (a : string) :
  forallb (fun c => negb (p c)) a = true -> rstrip_with p a = a.
Proof.
  induction a as [|c a IH]; simpl; [reflexivity|]. intros H.
  apply andb_true_iff in H as [Hc Ha]. apply negb_true_iff in Hc.
  now rewrite Hc, IH.
Qed.

Lemma forallb_rstrip_with (p q : ascii -> bool) (s : string) :
  forallb q s = true -> forallb q (rstrip_with p s) = true.
Proof.
  induction s as [|c s IH]; simpl; [reflexivity|]. intros H.
  apply andb_true_iff in H as [Hc Hs].
  destruct (p c && is_empty (rstrip_with p s)); simpl; [reflexivity|].
  now rewrite Hc, IH.
Qed.

Lemma forallb_strip (q : ascii -> bool) (s : string) :
  forallb q s = true -> forallb q (strip s) = true.
Proof.
  intros H. unfold strip, rstrip, lstrip.
  now apply forallb_rstrip_with, forallb_lstrip_with.
Qed.

Lemma forallb_impl (p q : ascii -> bool) (s : string) :
  (forall c, p c = true -> q c = true) ->
  forallb p s = true -> forallb q s = true.
Proof.
  intros Hpq. induction s as [|c s IH]; simpl; [reflexivity|]. intros H.
  apply andb_true_iff in H as [Hc Hs]. now rewrite (Hpq c Hc), IH.
Qed.

(** Every line that [splitlines] gives is made of characters of the
    text. *)
Lemma splitlines_from_chars (q : ascii -> bool) (s : string) :
  forall (cur : string) (after_cr : bool),
    forallb q cur = true -> forallb q s = true ->
    Forall (fun line => forallb q line = true) (splitlines_from cur after_cr s).
Proof.
  induction s as [|c s IH]; intros cur after_cr Hcur Hs; simpl.
  - destruct (is_empty cur); constructor; [assumption | constructor].
  - simpl in Hs. apply andb_true_iff in Hs as [Hc Hs].
    destruct (after_cr && (nat_of_ascii c =? 10)); [now apply IH|].
    destruct (is_linebreak c).
    + constructor; [assumption | now apply IH].
    + apply IH; [|assumption].
      rewrite forallb_append, Hcur. simpl. now rewrite Hc.
Qed.

(** A first line without line boundary, ended by a line feed, is the
    first line that [splitlines] gives. *)
Lemma splitlines_from_first (l rest : string) :
  one_line l = true ->
  forall cur : string,
    splitlines_from cur false (l ++ newline ++ rest)
    = (cur ++ l) :: splitlines_from "" false rest.
Proof.
  induction l as [|c l IH]; intros H cur.
  - simpl. now rewrite append_empty_r.
  - unfold one_line in H. simpl in H. apply andb_true_iff in H as [Hc Hl].
    apply negb_true_iff in Hc.
    change ((String c l ++ newline ++ rest))
      with (String c (l ++ newline ++ rest)).
    cbn [splitlines_from andb]. rewrite Hc, (IH Hl), append_assoc.
    reflexivity.
Qed.

Lemma is_hash_eq (c : ascii) : is_hash c = true -> c = "#"%char.
Proof. unfold is_hash. apply Ascii.eqb_eq. Qed.

Lemma hash_not_space (c : ascii) : is_hash c = true -> isspace c = false.
Proof. intros H. apply is_hash_eq in H. now subst. Qed.

Lemma hash_not_linebreak (c : ascii) :
  is_hash c = true -> is_linebreak c = false.
Proof. intros H. apply is_hash_eq in H. now subst. Qed.

Lemma first_heading_none (lines : list string) :
  Forall (fun line => forallb (fun c => negb (is_hash c)) line = true) lines ->
  first_heading lines = None.
Proof.
  induction 1 as [|line lines H _ IH]; simpl; [reflexivity|].
  apply (forallb_strip _ line) in H.
  destruct (startswith (strip line) "#") eqn:E; [|exact IH].
  unfold startswith in E. apply prefix_append in E as [q E].
  rewrite E in H. discriminate H.
Qed.

Lemma first_heading_stripped (lines : list string) (h : string) :
  first_heading lines = Some h -> strip h = h.
Proof.
  induction lines as [|line lines IH]; simpl; [discriminate|].
  destruct (startswith (strip line) "#"); [|exact IH].
  intros E. injection E as <-. apply strip_idem.
Qed.

End HeadingFacts.

(** [_extract_app_name] falls back on the name of the application when
    there is no FENRIR.md, when it is empty, and when its text holds no
    [#] at all. *)
Theorem extract_app_name_fallback :
  forall (md : option string) (name : string),
    (md = None \/ md = Some ""
     \/ exists text, md = Some text
                     /\ PyStr.forallb (fun c => negb (is_hash c)) text = true) ->
    _extract_app_name md name = name.
Proof.
  intros md name [->|[->|(text & -> & H)]]; try reflexivity.
  unfold _extract_app_name. destruct (PyStr.is_empty text); [reflexivity|].
  rewrite HeadingFacts.first_heading_none; [reflexivity|].
  now apply HeadingFacts.splitlines_from_chars.
Qed.

Lemma extract_app_name_fallback_witness :
  _extract_app_name (Some "A tiny bookstore app.") "bookstore" = "bookstore".
Proof.
  apply extract_app_name_fallback. right; right.
  exists "A tiny bookstore app.". split; reflexivity.
Defined.

(** The name that [_extract_app_name] takes from a heading has no white
    space around it: the result is the fallback name or a string that
    [strip] leaves alone. *)
Theorem extract_app_name_stripped :
  forall (md : option string) (name : string),
    _extract_app_name md name = name
    \/ PyStr.strip (_extract_app_name md name) = _extract_app_name md name.
Proof.
  intros [text|] name; [|now left]. unfold _extract_app_name.
  destruct (PyStr.is_empty text); [now left|].
  destruct (first_heading (PyStr.splitlines text)) as [h|] eqn:E; [|now left].
  right. now apply (HeadingFacts.first_heading_stripped _ E).
Qed.

(** A text whose first line is a heading -- one or more [#], a space and
    a title with no white space around it -- gives the title, whatever
    follows the line; the title may itself start with [#], and an empty
    title gives the empty string, not the fallback name. *)
Theorem extract_app_name_heading :
  forall (hashes title rest name : string),
    hashes <> "" ->
    PyStr.forallb is_hash hashes = true ->
    one_line title = true ->
    PyStr.strip title = title ->
    _extract_app_name (Some (hashes ++ " " ++ title ++ newline ++ rest)) name
    = title.
Proof.
  intros hashes title rest name Hne Hh Hl Hs.
  assert (Hlstrip : forall x, PyStr.lstrip (hashes ++ x) = hashes ++ x).
  { intros x. destruct hashes as [|h0 hs]; [congruence|].
    apply HeadingFacts.lstrip_with_id. simpl.
    simpl in Hh. apply andb_true_iff in Hh as [Hh0 _].
    now apply HeadingFacts.hash_not_space. }
  assert (Hstart : forall x, PyStr.startswith (hashes ++ x) "#" = true).
  { intros x. destruct hashes as [|h0 hs]; [congruence|].
    simpl in Hh. apply andb_true_iff in Hh as [Hh0 _].
    apply HeadingFacts.is_hash_eq in Hh0. subst h0.
    apply PyStrFacts.prefix_append. now exists (hs ++ x). }
  assert (Hnonempty : forall x, PyStr.is_empty (hashes ++ x) = false).
  { intros x. destruct hashes; [congruence | reflexivity]. }
  clear Hne.
  assert (Hsp : PyStr.forallb (fun c => negb (PyStr.isspace c)) hashes = true).
  { eapply HeadingFacts.forallb_impl; [|exact Hh]. intros c Hc.
    now rewrite (HeadingFacts.hash_not_space _ Hc). }
  assert (Hline : one_line (hashes ++ " " ++ title) = true).
  { unfold one_line. rewrite !PyStrFacts.forallb_append.
    apply andb_true_iff. split; [|exact Hl].
    eapply HeadingFacts.forallb_impl; [|exact Hh]. intros c Hc.
    now rewrite (HeadingFacts.hash_not_linebreak _ Hc). }
  assert (Htl : PyStr.lstrip title = title).
  { rewrite <- Hs. unfold PyStr.strip, PyStr.rstrip, PyStr.lstrip.
    apply HeadingFacts.lstrip_with_id, HeadingFacts.rstrip_with_lstripped,
      HeadingFacts.lstrip_with_lstripped. }
  assert (Htr : PyStr.rstrip_with PyStr.isspace title = title).
  { rewrite <- Hs. unfold PyStr.strip, PyStr.rstrip.
    apply HeadingFacts.rstrip_with_idem. }
  assert (Hstrip : PyStr.strip (hashes ++ " " ++ title)
                   = hashes ++ (if PyStr.is_empty title then "" else " " ++ title)).
  { unfold PyStr.strip. rewrite Hlstrip. unfold PyStr.rstrip.
    destruct (PyStr.is_empty title) eqn:Et.
    - apply PyStrFacts.is_empty_true in Et. subst title.
      rewrite HeadingFacts.rstrip_with_append_drop by reflexivity.
      rewrite HeadingFacts.rstrip_with_none by exact Hsp.
      now rewrite PyStrFacts.append_empty_r.
    - rewrite <- (PyStrFacts.append_assoc hashes " " title).
      rewrite HeadingFacts.rstrip_with_append_keep by now rewrite Htr.
      now rewrite Htr, PyStrFacts.append_assoc. }
  unfold _extract_app_name. rewrite Hnonempty.
  assert (E : hashes ++ " " ++ title ++ newline ++ rest
              = (hashes ++ " " ++ title) ++ newline ++ rest)
    by now rewrite !PyStrFacts.append_assoc.
  rewrite E. unfold PyStr.splitlines.
  rewrite (HeadingFacts.splitlines_from_first _ rest Hline "").
  change ("" ++ (hashes ++ " " ++ title)) with (hashes ++ " " ++ title).
  cbn [first_heading]. rewrite Hstrip, Hstart. f_equal.
  rewrite PyStrFacts.lstrip_with_append by exact Hh.
  destruct (PyStr.is_empty title) eqn:Et.
  - apply PyStrFacts.is_empty_true in Et. now subst title.
  - change (PyStr.lstrip_with is_hash (" " ++ title)) with (" " ++ title).
    unfold PyStr.strip.
    change (PyStr.lstrip (" " ++ title)) with (PyStr.lstrip title).
    rewrite Htl. exact Htr.
Qed.

Lemma extract_app_name_heading_witness :
  _extract_app_name
    (Some ("#" ++ " " ++ "Bookstore" ++ newline ++ (newline ++ "A tiny bookstore app.")))
    "bookstore"
  = "Bookstore".
Proof.
  apply extract_app_name_heading; [discriminate | reflexivity..].
Defined.

(* ================================================================== *)
(** * Further properties: the two introspection views *)
(* ================================================================== *)

Section IndexAndSchema.

Context {B : Backend}.

Lemma through_first_cons (failing : string -> bool) (t : string)
  (rest : list string) :
  exists s more, through_first failing (t :: rest) = s :: more.
Proof. simpl. destruct (failing t); eauto. Qed.

(** The calls made by the loop of [index] when the counting statements
    write nothing: one statement for each table, in the order of the
    loop, up to the first one that raises. *)
Lemma count_loop_calls (db : DB) (l : list string) :
  counting_reads_only db ->
  forall u : world,
    committed u = db -> (txn u = None \/ txn u = Some db) ->
    calls (snd (for_each count_rows l u))
    = (calls u
       ++ map Execute
            (map count_sql
                 (through_first (fun t => negb (is_some (count_of db t))) l)))%list
    /\ begun (snd (for_each count_rows l u))
       = match l with [] => begun u | _ :: _ => true end.
Proof.
  intros Hro. induction l as [|t l IH]; intros u Hc Ht.
  - simpl. now rewrite app_nil_r.
  - rewrite for_each_cons. cbn [through_first].
    destruct (count_rows_value t u Hro Hc Ht) as (Hv & Hw & Ht').
    destruct (count_rows t u) as [[c|e] v]; cbn [fst snd] in Hv, Hw, Ht'.
    + destruct (count_of db t) as [c'|]; [|destruct Hv; discriminate].
      cbn [is_some negb].
      assert (Hc' : committed v = db) by (rewrite Hw; reflexivity).
      destruct (IH v Hc' Ht') as [IH1 IH2].
      assert (Hcalls : calls v = (calls u ++ [Execute (count_sql t)])%list)
        by (rewrite Hw; reflexivity).
      assert (Hb : begun v = true) by (rewrite Hw; reflexivity).
      destruct (for_each count_rows l v) as [[cs|e] v'];
        cbn [fst snd] in IH1, IH2 |- *;
        (split; [rewrite IH1, Hcalls, <- app_assoc; reflexivity
                | rewrite IH2; destruct l; [exact Hb | reflexivity]]).
    + destruct (count_of db t); [discriminate|]. cbn [is_some negb snd map].
      rewrite Hw. split; reflexivity.
Qed.

(** [index] hands its connection back, also when a counting statement
    fails.  When the counting statements write nothing, the calls it
    makes on its connection are the checkout, then, after the inspector
    was asked for the names, one statement for each table in sorted order
    up to the first that fails, a rollback when a statement was run, and
    the return of the connection; the committed contents are as before. *)
Theorem index_returns_connection :
  forall (env : app_env) (w : world),
    counting_reads_only (committed w) ->
    snd (answer (index env) w)
    = World (committed w) None false false
            (calls w ++ [Connect; Inspect]
             ++ match get_table_names (committed w) with
                | Raise _ => [Close]
                | Ok names =>
                    let failing t :=
                      negb (is_some (count_of (committed w) t)) in
                    let stmts :=
                      map count_sql (through_first failing (sorted names)) in
                    map Execute stmts ++ closing_calls stmts
                end)%list.
Proof.
  intros env w Hro. rewrite index_unfold.
  destruct (get_table_names (committed w)) as [names|e].
  - destruct (@count_loop_calls (committed w) (sorted names) Hro
                (counting_from w) eq_refl (or_introl eq_refl)) as [Hcalls Hb].
    destruct (@count_loop_value _ (committed w) (sorted names) Hro
                (counting_from w) eq_refl (or_introl eq_refl)) as [_ Hc].
    assert (E : snd (conn_close (snd (for_each count_rows (sorted names)
                                                (counting_from w))))
                = World (committed w) None false false
                    (calls w ++ [Connect; Inspect]
                     ++ map Execute
                          (map count_sql
                               (through_first
                                  (fun t => negb (is_some (count_of (committed w) t)))
                                  (sorted names)))
                     ++ closing_calls
                          (map count_sql
                               (through_first
                                  (fun t => negb (is_some (count_of (committed w) t)))
                                  (sorted names))))%list).
    { unfold conn_close. cbn [snd]. rewrite Hc, Hcalls, Hb.
      unfold counting_from. cbn [calls begun].
      destruct (sorted names) as [|t l].
      - simpl. now rewrite <- !app_assoc.
      - destruct (through_first_cons
                    (fun t => negb (is_some (count_of (committed w) t))) t l)
          as (s & more & ->).
        cbn [map closing_calls]. now rewrite <- !app_assoc. }
    cbv zeta.
    destruct (for_each count_rows _ _) as [[tables|e] v]; exact E.
  - unfold conn_close, counting_from. cbn. now rewrite <- !app_assoc.
Qed.

(** When the counting statements do not change the contents, [index]
    lists every table, in sorted order, with the first cell of the first
    row of its [COUNT] statement (null when there is no row).  When the
    inspector cannot give the names, when the statement of a table fails
    or returns no rows object, or when a count cannot be serialised, the
    whole request is a server error with no partial list. *)
Theorem index_counts :
  forall (env : app_env) (w : world),
    counting_reads_only (committed w) ->
    fst (answer (index env) w)
    = match get_table_names (committed w) with
      | Raise _ => Response 500 Page []
      | Ok names =>
          match counts_of (committed w) (sorted names) with
          | Some tables =>
              if counts_serialisable tables
              then jsonify 200 (JIndex (_extract_app_name (_read_fenrir_md env)
                                                          (app_name env))
                                       (_read_fenrir_md env) tables)
              else Response 500 Page []
          | None => Response 500 Page []
          end
      end.
Proof.
  intros env w Hro. exact (proj1 (index_answer env w Hro)).
Qed.

(** ** The object built by [schema] *)

Lemma dict_get_set (V : Type) (n t : string) (v : V) (d : list (string * V)) :
  dict_get n (dict_set t v d) = if String.eqb n t then Some v else dict_get n d.
Proof.
  induction d as [|[k' v'] d IH]; simpl; [reflexivity|].
  destruct (String.eqb t k') eqn:Etk; simpl.
  - apply String.eqb_eq in Etk. subst k'. now destruct (String.eqb n t).
  - rewrite IH. destruct (String.eqb n t) eqn:Ent; [|reflexivity].
    apply String.eqb_eq in Ent. subst n. now rewrite Etk.
Qed.

Lemma dict_get_fill (V : Type) (f : string -> V) (n : string) (l : list string) :
  forall acc : list (string * V),
    dict_get n (fold_left (fun d t => dict_set t (f t) d) l acc)
    = if existsb (String.eqb n) l then Some (f n) else dict_get n acc.
Proof.
  induction l as [|t l IH]; intros acc; simpl; [reflexivity|].
  rewrite IH, dict_get_set.
  destruct (String.eqb n t) eqn:E; simpl.
  - apply String.eqb_eq in E. subst t. now destruct (existsb _ l).
  - reflexivity.
Qed.

Lemma existsb_sorted (n : string) (l : list string) :
  existsb (String.eqb n) (sorted l) = existsb (String.eqb n) l.
Proof.
  destruct (existsb (String.eqb n) l) eqn:E.
  - apply (proj2 (SortFacts.existsb_eqb_in n (sorted l))).
    apply (proj2 (in_sorted l n)).
    now apply (proj1 (SortFacts.existsb_eqb_in n l)).
  - destruct (existsb (String.eqb n) (sorted l)) eqn:E'; [|reflexivity].
    apply (proj1 (SortFacts.existsb_eqb_in n (sorted l))) in E'.
    apply (proj1 (in_sorted l n)) in E'.
    apply (proj2 (SortFacts.existsb_eqb_in n l)) in E'. congruence.
Qed.

(** [schema] answers 200 when the inspector gives the names and answers
    the four questions about every table, and it is a server error when
    one of these calls raises.  In the object of a 200 answer, a name
    that the inspector lists holds the columns, the primary key, the
    foreign keys and the indexes that the inspector gives for it, field
    by field, and a name that it does not list holds nothing. *)
Theorem schema_lookup :
  forall (w : world),
    match get_table_names (committed w) with
    | Raise _ => fst (answer schema w) = Response 500 Page []
    | Ok names =>
        ((exists t, In t names /\ ~ describable (committed w) t) ->
         fst (answer schema w) = Response 500 Page [])
        /\ ((forall t, In t names -> describable (committed w) t) ->
            exists tables,
              fst (answer schema w) = jsonify 200 (JSchema tables)
              /\ (forall n, ~ In n names -> dict_get n tables = None)
              /\ (forall n cols pk fks idxs,
                     In n names ->
                     get_columns (committed w) n = Ok cols ->
                     get_pk_constraint (committed w) n = Ok pk ->
                     get_foreign_keys (committed w) n = Ok fks ->
                     get_indexes (committed w) n = Ok idxs ->
                     dict_get n tables
                     = Some (TableDesc
                               (map (fun c =>
                                       Column (rc_name c) (rc_type c)
                                              (match rc_nullable c with
                                               | Some b => b
                                               | None => true
                                               end)
                                              (rc_default c)) cols)
                               (match pk with
                                | Some (Some cs) => cs
                                | _ => []
                                end)
                               (map (fun fk =>
                                       ForeignKey (rfk_constrained_columns fk)
                                                  (rfk_referred_table fk)
                                                  (rfk_referred_columns fk)) fks)
                               (map (fun i =>
                                       IndexDesc (ri_name i) (ri_column_names i)
                                                 (ri_unique i)) idxs))))
    end.
Proof.
  intros w. destruct (get_table_names (committed w)) as [names|e] eqn:Hn.
  - split.
    + intros (t & Hin & Hbad). rewrite schema_unfold, Hn.
      assert (R : exists e, fst (schema_loop (sorted names) [] (log Inspect w))
                            = Raise e).
      { apply (@schema_loop_raises _ (committed w)); [|reflexivity].
        exists t. split; [now apply in_sorted | exact Hbad]. }
      destruct R as [e R].
      destruct (schema_loop _ _ _) as [[tables|e'] v]; cbn [fst] in R |- *;
        [discriminate | reflexivity].
    + intros Hd. eexists. split; [exact (schema_answer w Hn Hd)|]. split.
      * intros n Hnot. rewrite dict_get_fill, existsb_sorted.
        destruct (existsb (String.eqb n) names) eqn:E; [|reflexivity].
        apply SortFacts.existsb_eqb_in in E. contradiction.
      * intros n cols pk fks idxs Hin Hc Hp Hf Hi.
        rewrite dict_get_fill, existsb_sorted.
        apply SortFacts.existsb_eqb_in in Hin. rewrite Hin.
        unfold table_in. now rewrite Hc, Hp, Hf, Hi.
  - rewrite schema_unfold, Hn. reflexivity.
Qed.

End IndexAndSchema.

Lemma index_returns_connection_witness :
  snd (answer (index Bookstore.production)
              (Bookstore.fresh (Bookstore.authors 2)))
  = World (Bookstore.authors 2) None false false
          [Connect; Inspect; Execute (count_sql "author");
           Execute (count_sql "book"); Rollback; Close].
Proof.
  refine (@index_returns_connection Bookstore.engine Bookstore.production
            (Bookstore.fresh (Bookstore.authors 2)) _).
  apply bookstore_counts_read_only.
Defined.

Lemma index_counts_witness :
  fst (answer (index Bookstore.production)
              (Bookstore.fresh (Bookstore.authors 2)))
  = jsonify 200 (JIndex "Bookstore" (Some "# Bookstore")
                        [("author", Some (CInt 2)); ("book", Some (CInt 0))]).
Proof.
  refine (@index_counts Bookstore.engine Bookstore.production
            (Bookstore.fresh (Bookstore.authors 2)) _).
  apply bookstore_counts_read_only.
Defined.

Lemma schema_lookup_witness :
  exists tables,
    fst (answer schema (Bookstore.fresh (Bookstore.authors 2)))
    = jsonify 200 (JSchema tables)
    /\ dict_get "book" tables
       = Some (TableDesc
                 [Column "id" "INTEGER" false None;
                  Column "author_id" "INTEGER" false None]
                 ["id"]
                 [ForeignKey ["author_id"] "author" ["id"]]
                 []).
Proof.
  destruct (proj2 (@schema_lookup Bookstore.engine
                     (Bookstore.fresh (Bookstore.authors 2)))
                  (fun t _ => bookstore_describable (Bookstore.authors 2) t))
    as (tables & E & _ & H).
  exists tables. split; [exact E|].
  apply (H "book" (Bookstore.columns_of "book") (Some (Some ["id"]))
           (Bookstore.fks_of "book") []);
    [left; reflexivity | reflexivity..].
Defined.

(* ================================================================== *)
(** * Further properties: the answers of [query] *)
(* ================================================================== *)

Module KeywordFacts.

Import UStr Regex.
Local Open Scope list_scope.

(** No character is taken both for an S and for a W. *)
Lemma not_both_S_W (x : N) :
  literal_ignorecase 83 x = true -> literal_ignorecase 87 x = true -> False.
Proof.
  intros Hs Hw.
  apply ClassifyFacts.literal_ignorecase_true in Hs, Hw.
  change (ascii_lower 83) with 115%N in Hs.
  change (ascii_lower 87) with 119%N in Hw.
  destruct (UStrFacts.ascii_lower_cases x) as [[Hx Ex]|[Hx Ex]];
    rewrite Ex in Hs, Hw; lia.
Qed.

(** A text that the pattern takes for a keyword holds no white space. *)
Lemma keyword_no_space (kw b : ustr) :
  Forall is_letter kw ->
  is_keyword literal_ignorecase kw b = true ->
  forallb (fun c => negb (isspace c)) b = true.
Proof.
  intros Hk. revert b. induction Hk as [|k kw Hl _ IH]; intros [|x b];
    simpl; try discriminate; [reflexivity|].
  intros H. apply andb_true_iff in H as [Hx Hb].
  rewrite (@ClassifyFacts.letter_not_space k x Hl Hx). simpl. now apply IH.
Qed.

Lemma letters_SELECT : Forall is_letter (U "SELECT").
Proof.
  vm_compute.
  repeat (apply Forall_cons;
          [unfold is_letter; vm_compute; split; discriminate|]).
  apply Forall_nil.
Qed.

Lemma letters_WITH : Forall is_letter (U "WITH").
Proof.
  vm_compute.
  repeat (apply Forall_cons;
          [unfold is_letter; vm_compute; split; discriminate|]).
  apply Forall_nil.
Qed.

(** A statement that the pattern accepts is refused once it is stripped
    exactly when nothing is left of it but the keyword WITH. *)
Lemma stripped_gap (raw : ustr) :
  ignorecase_read_only raw = true ->
  (ignorecase_read_only (strip raw) = false
   <-> is_keyword literal_ignorecase (U "WITH") (strip raw) = true).
Proof.
  unfold ignorecase_read_only at 1. unfold prefix_rule. cbv zeta.
  unfold strip. set (t := lstrip raw). intros Hc.
  apply orb_true_iff in Hc as [Hs|Hw].
  - apply ClassifyFacts.begins_with_iff in Hs as (b & q & Et & Hb).
    rewrite Et. unfold rstrip.
    rewrite UStrFacts.rstrip_with_keeps_prefix
      by (apply (@keyword_no_space _ _ letters_SELECT Hb)).
    split.
    + intros H. exfalso. unfold ignorecase_read_only, prefix_rule in H.
      cbv zeta in H.
      rewrite (@ClassifyFacts.keyword_stops_strip 83%N (U "ELECT") b _
                 ClassifyFacts.letter_S Hb) in H.
      apply orb_false_iff in H as [H _].
      assert (T : begins_with literal_ignorecase (U "SELECT")
                    (b ++ rstrip_with isspace q) = true)
        by (apply ClassifyFacts.begins_with_iff; now eexists _, _).
      congruence.
    + intros H. exfalso.
      destruct b as [|x b]; [discriminate|].
      change (U "SELECT") with (83 :: U "ELECT")%N in Hb.
      change (U "WITH") with (87 :: U "ITH")%N in H.
      cbn [is_keyword app] in Hb, H.
      apply andb_true_iff in Hb as [Hx _]. apply andb_true_iff in H as [Hy _].
      exact (@not_both_S_W x Hx Hy).
  - apply andb_true_iff in Hw as [Hw Hsp].
    apply ClassifyFacts.begins_with_iff in Hw as (b & q & Et & Hb).
    rewrite Et in *. rewrite (@ClassifyFacts.nth_4_of_with _ b q Hb) in Hsp.
    destruct q as [|c q]; [discriminate|]. cbn [hd_error] in Hsp.
    unfold rstrip.
    rewrite UStrFacts.rstrip_with_keeps_prefix
      by (apply (@keyword_no_space _ _ letters_WITH Hb)).
    cbn [rstrip_with]. rewrite Hsp. cbn [andb].
    destruct (is_empty (rstrip_with isspace q)) eqn:E.
    + rewrite app_nil_r. split; [intros _; exact Hb|]. intros _.
      unfold ignorecase_read_only, prefix_rule. cbv zeta.
      rewrite <- (app_nil_r b) at 1 2 3.
      rewrite (@ClassifyFacts.keyword_stops_strip 87%N (U "ITH") b []
                 ClassifyFacts.letter_W Hb).
      rewrite (@ClassifyFacts.nth_4_of_with _ b [] Hb). cbn [hd_error].
      rewrite andb_false_r, orb_false_r, app_nil_r.
      destruct (begins_with literal_ignorecase (U "SELECT") b) eqn:S;
        [exfalso|reflexivity].
      destruct b as [|x b]; [discriminate|].
      change (U "SELECT") with (83 :: U "ELECT")%N in S.
      change (U "WITH") with (87 :: U "ITH")%N in Hb.
      cbn [begins_with is_keyword] in S, Hb.
      apply andb_true_iff in S as [Hx _]. apply andb_true_iff in Hb as [Hy _].
      exact (@not_both_S_W x Hx Hy).
    + split.
      * intros H. exfalso. unfold ignorecase_read_only, prefix_rule in H.
        cbv zeta in H.
        rewrite (@ClassifyFacts.keyword_stops_strip 87%N (U "ITH") b _
                   ClassifyFacts.letter_W Hb) in H.
        rewrite (@ClassifyFacts.nth_4_of_with _ b _ Hb) in H.
        apply orb_false_iff in H as [_ H]. cbn [hd_error] in H.
        rewrite Hsp, andb_true_r in H.
        assert (T : begins_with literal_ignorecase (U "WITH")
                      (b ++ c :: rstrip_with isspace q) = true)
          by (apply ClassifyFacts.begins_with_iff; now eexists _, _).
        congruence.
      * intros H. exfalso.
        apply ClassifyFacts.is_keyword_length in H.
        apply ClassifyFacts.is_keyword_length in Hb.
        rewrite length_app, Hb in H. simpl in H. lia.
Qed.

End KeywordFacts.

Section QueryAnswers.

Context {B : Backend}.


Lemma well_formed_posts (req : request) (d : list (string * pyval))
  (s : ustr) :
  py_or (req_json req) (PDict []) = PDict d ->
  assoc "sql" d = Some (PStr s) ->
  posts_sql req s.
Proof.
  unfold py_or. intros E H. destruct (truthy (req_json req)).
  - now exists d.
  - injection E as <-. discriminate.
Qed.

(** [query] ends in a server error in two cases only.  The body is a
    JSON value other than an object that is not false, or its [sql] is
    not a string: then the engine is not used.  Or the statement ran and
    one of the rows to return holds a value that cannot be serialised.
    In every other case the status is 200, 400 or 422: what the engine
    raises inside the [with] block does not leave the view. *)
Theorem query_server_error :
  forall (N : Z) (req : request) (w : world),
    (body_well_formed (req_json req) = false ->
     answer (query N req) w = (Response 500 Page [], w))
    /\ (body_well_formed (req_json req) = true ->
        (fst (answer (query N req) w) = Response 500 Page []
         /\ exists raw ks rs db' taken rest,
             posts_sql req raw
             /\ classify (UStr.strip raw) = READ_ONLY
             /\ run_sql (UStr.strip raw) (read_only_view (committed w))
                = Done (Rows ks rs) db'
             /\ take_rows N rs = Ok (taken, rest)
             /\ rows_serialisable taken = false)
        \/ In (status (fst (answer (query N req) w))) [200; 400; 422]).
Proof.
  intros N req w. unfold body_well_formed. split.
  - unfold answer, query, bind, lift_result.
    destruct (py_or (req_json req) (PDict [])) as [| | | | |d];
      try reflexivity; try discriminate.
    cbn [py_get]. destruct (assoc "sql" d) as [[| | |s| |]|];
      try reflexivity; discriminate.
  - destruct (py_or (req_json req) (PDict [])) as [| | | | |d] eqn:Eb;
      try discriminate.
    destruct (assoc "sql" d) as [[| | |s| |]|] eqn:Es; try discriminate;
      intros _.
    + pose proof (well_formed_posts req Eb Es) as Hb.
      unfold answer. rewrite (query_posted N Hb). cbv zeta.
      destruct (UStr.is_empty (UStr.strip s)); [right; simpl; tauto|].
      destruct (Regex.re_match _READ_ONLY_RE (UStr.strip s)) eqn:R;
        cbn [negb]; [|right; simpl; tauto].
      rewrite try_block_run.
      destruct (run_sql (UStr.strip s) (read_only_view (committed w)))
        as [m|[ks rs|] d'] eqn:Hrun;
        [right; simpl; tauto| |right; simpl; tauto].
      unfold block_result.
      destruct (take_rows N rs) as [[taken rest]|e] eqn:Ht;
        [|right; simpl; tauto].
      unfold after_block, try_jsonify, serialisable.
      destruct (rows_serialisable taken) eqn:Hs; [right; simpl; tauto|].
      left. split; [reflexivity|].
      exists s, ks, rs, d', taken, rest.
      repeat split; try assumption. now apply classify_read_only.
    + right. unfold answer, query, bind, lift_result. rewrite Eb.
      cbn [py_get]. rewrite Es. simpl. tauto.
Qed.

(** White space before and after the posted statement changes nothing:
    the two requests are handled alike by [query]. *)
Theorem query_ignores_outer_space :
  forall (N : Z) (req1 req2 : request) (raw before after : ustr),
    posts_sql req1 raw ->
    posts_sql req2 (before ++ raw ++ after)%list ->
    forallb UStr.isspace before = true ->
    forallb UStr.isspace after = true ->
    query N req1 = query N req2.
Proof.
  intros N req1 req2 raw before after H1 H2 Hb Ha.
  rewrite (query_posted N H1), (query_posted N H2).
  now rewrite (UStrFacts.strip_outer_space before raw after Hb Ha).
Qed.

(** The pattern and the view disagree on one kind of statement only: a
    statement that the pattern accepts as posted is refused by [query]
    exactly when, once stripped, it is the word WITH alone, in the
    letters that [re.IGNORECASE] takes for those of the keyword. *)
Theorem query_refuses_with_alone :
  forall (N : Z) (req : request) (raw : ustr) (w : world),
    posts_sql req raw ->
    classify raw = READ_ONLY ->
    (status (fst (answer (query N req) w)) = 400
     <-> is_keyword Regex.literal_ignorecase (U "WITH") (UStr.strip raw)
         = true).
Proof.
  intros N req raw w Hb Hc.
  apply classify_read_only in Hc.
  rewrite ClassifyFacts.re_match_read_only in Hc.
  pose proof (KeywordFacts.stripped_gap raw Hc) as Gap.
  rewrite <- ClassifyFacts.re_match_read_only in Gap.
  assert (Hne : UStr.is_empty (UStr.strip raw) = false).
  { destruct (UStr.is_empty (UStr.strip raw)) eqn:E; [|reflexivity].
    apply UStrFacts.ustr_is_empty_true, UStrFacts.ustr_strip_empty in E.
    apply UStrFacts.ustr_lstrip_with_empty in E.
    unfold ignorecase_read_only, prefix_rule, UStr.lstrip in Hc.
    rewrite E in Hc. discriminate. }
  unfold answer. rewrite (query_posted N Hb). cbv zeta. rewrite Hne.
  destruct (Regex.re_match _READ_ONLY_RE (UStr.strip raw)) eqn:R; cbn [negb].
  - split.
    + rewrite try_block_run.
      destruct (run_sql _ _) as [m|[ks rs|] d];
        [discriminate| |discriminate].
      unfold block_result.
      destruct (take_rows N rs) as [[taken rest]|e]; [|discriminate].
      unfold after_block, try_jsonify, serialisable.
      destruct (rows_serialisable taken); discriminate.
    + intros H. apply Gap in H. discriminate.
  - split; [intros _; now apply Gap | reflexivity].
Qed.

(** [query] runs the statement it accepts once, stripped of the white
    space around it, after one attempt to make the transaction read-only;
    these are all the calls it makes on its connection, whether the
    statement succeeds or fails. *)
Theorem query_executes_once :
  forall (N : Z) (req : request) (raw : ustr) (w : world),
    posts_sql req raw ->
    classify (UStr.strip raw) = READ_ONLY ->
    calls (snd (query N req w))
    = (calls w ++ [Connect; Begin;
                   Execute (U "SET TRANSACTION READ ONLY");
                   Execute (UStr.strip raw); Rollback; Close])%list.
Proof.
  intros N req raw w Hb Hc. now rewrite (query_accepted N w Hb Hc).
Qed.

(** What [query] leaves committed is decided by the driver.  Behind a
    driver that opens a transaction before every statement, nothing that
    a request makes the engine do is committed.  Otherwise the statements
    before which the driver opens no transaction are committed as they
    run, and the rollback does not undo them. *)
Theorem query_committed_contents :
  forall (N : Z) (req : request) (w : world),
    ((forall sql, driver_begins sql = true) ->
     committed (snd (query N req w)) = committed w)
    /\ (forall raw,
           posts_sql req raw ->
           classify (UStr.strip raw) = READ_ONLY ->
           committed (snd (query N req w))
           = if driver_begins (U "SET TRANSACTION READ ONLY")
             then committed w
             else
               let seen :=
                 match run_sql (U "SET TRANSACTION READ ONLY") (committed w) with
                 | Done _ db' => db'
                 | Failed _ => committed w
                 end in
               if driver_begins (UStr.strip raw) then seen
               else match run_sql (UStr.strip raw) seen with
                    | Done _ db' => db'
                    | Failed _ => seen
                    end).
Proof.
  intros N req w. split.
  - intros Hd. destruct (query_world N req w) as [->|(sql & _ & ->)];
      [reflexivity|].
    cbn [committed]. unfold committed_after. now rewrite Hd.
  - intros raw Hb Hc. now rewrite (query_accepted N w Hb Hc).
Qed.

End QueryAnswers.

(** A statement whose first character after the leading white space is
    not one that the pattern takes for S or W (these letters in either
    case, and U+017F) is classified MUTATING: a comment, a parenthesis,
    EXPLAIN, VALUES or PRAGMA in front of a read keeps it out of
    [/fenrir/query], which answers 400 without a call to the engine. *)
Theorem classify_first_character :
  forall (S : ustr) (c : N) (rest : ustr),
    UStr.lstrip S = c :: rest ->
    UStr.ascii_lower c <> 115%N -> UStr.ascii_lower c <> 119%N ->
    c <> 383%N ->
    classify S = MUTATING
    /\ forall (B : Backend) (N : Z) (req : request) (w : world),
        posts_sql req S ->
        exists msg,
          answer (query N req) w = (jsonify 400 (JError msg), w).
Proof.
  intros S c rest Hl Hs Hw Hlong.
  assert (M : classify S = MUTATING).
  { apply classify_mutating.
    rewrite ClassifyFacts.re_match_read_only.
    unfold ignorecase_read_only, prefix_rule. cbv zeta. rewrite Hl.
    change (U "SELECT") with (83 :: U "ELECT")%N.
    change (U "WITH") with (87 :: U "ITH")%N.
    cbn [begins_with].
    assert (E1 : Regex.literal_ignorecase 83 c = false).
    { destruct (Regex.literal_ignorecase 83 c) eqn:E; [|reflexivity].
      apply ClassifyFacts.literal_ignorecase_true in E.
      change (UStr.ascii_lower 83) with 115%N in E. lia. }
    assert (E2 : Regex.literal_ignorecase 87 c = false).
    { destruct (Regex.literal_ignorecase 87 c) eqn:E; [|reflexivity].
      apply ClassifyFacts.literal_ignorecase_true in E.
      change (UStr.ascii_lower 87) with 119%N in E. lia. }
    now rewrite E1, E2. }
  split; [exact M|].
  intros B N req w Hb.
  destruct (@query_rejects_mutating B N req S w Hb M) as [msg E].
  exists msg. unfold answer. now rewrite E.
Qed.


Lemma query_server_error_witness :
  answer (query (B := Bookstore.engine) 3
                (Bookstore.post "/fenrir/query" Bookstore.no_headers
                                (PDict [("sql", PInt 1)])))
         (Bookstore.fresh (Bookstore.authors 1))
  = (Response 500 Page [], Bookstore.fresh (Bookstore.authors 1)).
Proof.
  apply (proj1 (@query_server_error Bookstore.engine 3
                  (Bookstore.post "/fenrir/query" Bookstore.no_headers
                                  (PDict [("sql", PInt 1)]))
                  (Bookstore.fresh (Bookstore.authors 1)))).
  reflexivity.
Defined.

Lemma query_ignores_outer_space_witness :
  query (B := Bookstore.engine) 3
        (Bookstore.post "/fenrir/query" Bookstore.no_headers
                        (Bookstore.sql_body "SELECT * FROM author"))
  = query 3
          (Bookstore.post "/fenrir/query" Bookstore.no_headers
                          (PDict [("sql",
                                   PStr (U "  " ++ U "SELECT * FROM author"
                                         ++ U " ")%list)])).
Proof.
  apply (@query_ignores_outer_space Bookstore.engine 3 _ _
           (U "SELECT * FROM author") (U "  ") (U " ")); try reflexivity.
  - exists [("sql", PStr (U "SELECT * FROM author"))]. split; reflexivity.
  - exists [("sql", PStr (U "  " ++ U "SELECT * FROM author" ++ U " ")%list)].
    split; reflexivity.
Defined.

Lemma query_refuses_with_alone_witness :
  status (fst (answer (query (B := Bookstore.engine) 3
                             (Bookstore.post "/fenrir/query" Bookstore.no_headers
                                             (Bookstore.sql_body "with  ")))
                      (Bookstore.fresh (Bookstore.authors 1)))) = 400.
Proof.
  apply (@query_refuses_with_alone Bookstore.engine 3 _ (U "with  "));
    try reflexivity.
  exists [("sql", PStr (U "with  "))]. split; reflexivity.
Defined.

Lemma query_executes_once_witness :
  calls (snd (query (B := Bookstore.engine) 3
                    (Bookstore.post "/fenrir/query" Bookstore.no_headers
                                    (Bookstore.sql_body " SELECT add_author() "))
                    (Bookstore.fresh (Bookstore.authors 1))))
  = [Connect; Begin; Execute (U "SET TRANSACTION READ ONLY");
     Execute (U "SELECT add_author()"); Rollback; Close].
Proof.
  apply (@query_executes_once Bookstore.engine 3 _ (U " SELECT add_author() "));
    [|reflexivity].
  exists [("sql", PStr (U " SELECT add_author() "))]. split; reflexivity.
Defined.

Lemma query_committed_contents_witness :
  committed (snd (query (B := Bookstore.transactional) 3
                        (Bookstore.post "/fenrir/query" Bookstore.no_headers
                                        (Bookstore.sql_body "SELECT add_author()"))
                        (@World Bookstore.transactional (Bookstore.authors 1)
                                None false false [])))
  = Bookstore.authors 1.
Proof.
  apply (proj1 (@query_committed_contents Bookstore.transactional 3
                  (Bookstore.post "/fenrir/query" Bookstore.no_headers
                                  (Bookstore.sql_body "SELECT add_author()"))
                  (@World Bookstore.transactional (Bookstore.authors 1)
                          None false false []))).
  reflexivity.
Defined.

Lemma classify_first_character_witness :
  classify (U "  (SELECT 1)") = MUTATING.
Proof.
  refine (proj1 (@classify_first_character (U "  (SELECT 1)") 40%N
                   (U "SELECT 1)") eq_refl _ _ _));
    discriminate.
Defined.
